(** * renderer/html: the HTML renderer of goldmark, and its text writer

    A shallow embedding of [src/renderer/html/html.go].  Go's [int] is [Z],
    a [[]byte] is a [list byte], the output sink ([util.BufWriter]) is the
    list of the bytes appended so far, and a run of the code is a computation
    in a small state-and-panic monad. *)

From Stdlib Require Import String Strings.Byte DecimalString ZArith List Bool Lia.
Import ListNotations.
Local Open Scope Z_scope.

(** ** Outcomes of a run *)

(** A Go call either returns, or panics at run time (an index or a slice out
    of range, a failed type assertion).  [OutOfFuel] belongs to the model
    only: a loop whose counter the body assigns is unrolled along a budget. *)
Inductive Res (A : Type) : Type :=
| Ok (a : A)
| Panic
| OutOfFuel.
Arguments Ok {A} a.
Arguments Panic {A}.
Arguments OutOfFuel {A}.

(** The sink [util.BufWriter]: append only. *)
Definition BufWriter := list byte.

Definition M (A : Type) : Type := BufWriter -> Res (A * BufWriter).

Definition ret {A} (a : A) : M A := fun w => Ok (a, w).

Definition bind {A B} (m : M A) (k : A -> M B) : M B :=
  fun w =>
    match m w with
    | Ok (a, w') => k a w'
    | Panic => Panic
    | OutOfFuel => OutOfFuel
    end.

Definition panic {A} : M A := fun _ => Panic.
Definition out_of_fuel {A} : M A := fun _ => OutOfFuel.

Declare Scope go_scope.
Delimit Scope go_scope with go.
Notation "x <- m ;; k" := (bind m (fun x => k))
  (at level 61, m at next level, right associativity) : go_scope.
Notation "m ;;; k" := (bind m (fun _ => k))
  (at level 61, right associativity) : go_scope.
Local Open Scope go_scope.

(** ** Bytes and slices *)

Definition len {A} (s : list A) : Z := Z.of_nat (length s).

Definition b2z (c : byte) : Z := Z.of_N (Byte.to_N c).

(** [bs "text"] is the byte sequence of a Go string literal. *)
Definition bs (s : string) : list byte := list_byte_of_string s.

(** The double quote (a Rocq string cannot hold one conveniently). *)
Definition dquote : byte := x22.

(** [s[i]]: panics unless [0 <= i < len(s)]. *)
Definition index (s : list byte) (i : Z) : M byte :=
  if (0 <=? i) && (i <? len s) then
    match nth_error s (Z.to_nat i) with
    | Some c => ret c
    | None => panic
    end
  else panic.

(** The bytes of [s] at the positions [lo], ..., [hi - 1]. *)
Definition sub (s : list byte) (lo hi : Z) : list byte :=
  firstn (Z.to_nat (hi - lo)) (skipn (Z.to_nat lo) s).

(** [s[lo:hi]]: panics unless [0 <= lo <= hi <= len(s)] (the buffers here
    have no spare capacity). *)
Definition slice (s : list byte) (lo hi : Z) : M (list byte) :=
  if (0 <=? lo) && (lo <=? hi) && (hi <=? len s) then ret (sub s lo hi)
  else panic.

(** ** The sink's operations *)

Definition w_Write (p : list byte) : M unit := fun w => Ok (tt, w ++ p).
Definition w_WriteString (s : string) : M unit := w_Write (bs s).
Definition w_WriteByte (c : byte) : M unit := w_Write [c].

(** [utf8.EncodeRune], which [bufio.Writer.WriteRune] uses: a rune that is
    negative, a surrogate or above U+10FFFF is written as U+FFFD. *)
Definition z2b (z : Z) : byte :=
  match Byte.of_N (Z.to_N (z mod 256)) with
  | Some c => c
  | None => x00
  end.

Definition utf8_EncodeRune (r : Z) : list byte :=
  if (0 <=? r) && (r <=? 127) then [z2b r]
  else if (0 <=? r) && (r <=? 2047) then
    [z2b (Z.lor 192 (Z.shiftr r 6)); z2b (Z.lor 128 (Z.land r 63))]
  else if (r <? 0) || (1114111 <? r) || ((55296 <=? r) && (r <=? 57343)) then
    [xef; xbf; xbd]
  else if r <=? 65535 then
    [z2b (Z.lor 224 (Z.shiftr r 12));
     z2b (Z.lor 128 (Z.land (Z.shiftr r 6) 63));
     z2b (Z.lor 128 (Z.land r 63))]
  else
    [z2b (Z.lor 240 (Z.shiftr r 18));
     z2b (Z.lor 128 (Z.land (Z.shiftr r 12) 63));
     z2b (Z.lor 128 (Z.land (Z.shiftr r 6) 63));
     z2b (Z.lor 128 (Z.land r 63))].

Definition w_WriteRune (r : Z) : M unit := w_Write (utf8_EncodeRune r).

(** ** The escape table *)

(** [htmlEscaleTable]: 256 entries, [nil] everywhere but at 34, 38, 60 and
    62. *)
Definition htmlEscaleTable : list (option (list byte)) :=
  Eval cbv in
    (repeat None 34 ++ [Some (bs "&quot;")] ++
     repeat None 3 ++ [Some (bs "&amp;")] ++
     repeat None 21 ++ [Some (bs "&lt;"); None; Some (bs "&gt;")] ++
     repeat None 193).

(** [htmlEscaleTable[c]] for a byte [c]: always in range. *)
Definition htmlEscaleTable_at (c : byte) : option (list byte) :=
  nth (N.to_nat (Byte.to_N c)) htmlEscaleTable None.

(** ** RawWrite *)

(** The loop of [RawWrite]; [i] and [n] are the Go variables. *)
Fixpoint RawWrite_loop (fuel : nat) (source : list byte) (l i n : Z) : M Z :=
  if i <? l then
    match fuel with
    | O => out_of_fuel
    | S fuel' =>
        c <- index source i ;;
        match htmlEscaleTable_at c with
        | Some v =>
            p <- slice source (i - n) i ;;
            w_Write p ;;;
            w_Write v ;;;
            RawWrite_loop fuel' source l (i + 1) 0
        | None => RawWrite_loop fuel' source l (i + 1) (n + 1)
        end
    end
  else ret n.

Definition RawWrite (source : list byte) : M unit :=
  let l := len source in
  n <- RawWrite_loop (length source) source l 0 0 ;;
  if negb (n =? 0) then
    p <- slice source (l - n) l ;;
    w_Write p
  else ret tt.

(** What the specification says of [RawWrite], byte by byte: a
    metacharacter becomes its replacement, any other byte is itself. *)
Definition is_meta (c : byte) : bool :=
  Byte.eqb c dquote || Byte.eqb c "&"%byte || Byte.eqb c "<"%byte || Byte.eqb c ">"%byte.

Definition escape_byte (c : byte) : list byte :=
  if Byte.eqb c dquote then bs "&quot;"
  else if Byte.eqb c "&"%byte then bs "&amp;"
  else if Byte.eqb c "<"%byte then bs "&lt;"
  else if Byte.eqb c ">"%byte then bs "&gt;"
  else [c].

Definition escape_all (s : list byte) : list byte := flat_map escape_byte s.

(** The replacement sequences of the escape table. *)
Definition replacements : list (list byte) :=
  [bs "&quot;"; bs "&amp;"; bs "&lt;"; bs "&gt;"].

(** [out] holds a replacement sequence at position [k]. *)
Definition escaped_at (out : list byte) (k : nat) : Prop :=
  exists e, In e replacements /\ firstn (length e) (skipn k out) = e.

(** ** The util package *)

(** [renderer/html] calls these functions of the package [util], whose
    source is not part of this development: they are parameters of the
    model, gathered in a record.  [LookUpHTML5EntityByName] gives the
    [Characters] of the entity found. *)
Record Util : Type := {
  IsPunct : byte -> bool;
  IsHexDecimal : byte -> bool;
  IsNumeric : byte -> bool;
  IsAlphaNumeric : byte -> bool;
  LookUpHTML5EntityByName : list byte -> option (list byte);
  ToValidRune : Z -> Z;
  EscapeHTML : list byte -> list byte;
  URLEscape : list byte -> bool -> list byte
}.

(** ** strconv.ParseUint *)

(** Go's [strconv.ParseUint(s, base, bitSize)], value only (the writer drops
    the error): 0 on a syntax error, the largest [bitSize]-bit value on
    overflow.  Base 0 reads the base off the prefix: [0x] is 16, [0b] is 2,
    [0o] is 8, any other leading [0] is 8, and 10 otherwise.  (The digit
    separator that base 0 admits is not modelled: it counts as a syntax
    error here.) *)
Definition lower (c : Z) : Z := Z.lor c 32.

Definition digit_val (c : byte) : option Z :=
  let z := b2z c in
  if (48 <=? z) && (z <=? 57) then Some (z - 48)
  else if (97 <=? lower z) && (lower z <=? 122) then Some (lower z - 97 + 10)
  else None.

Fixpoint ParseUint_digits (base maxVal : Z) (s : list byte) (n : Z) : Z :=
  match s with
  | [] => n
  | c :: s' =>
      match digit_val c with
      | None => 0
      | Some d =>
          if base <=? d then 0
          else if (2 ^ 64 - 1) / base + 1 <=? n then maxVal
          else
            let n1 := n * base + d in
            if maxVal <? n1 then maxVal
            else ParseUint_digits base maxVal s' n1
      end
  end.

Definition ParseUint (s : list byte) (base bitSize : Z) : Z :=
  let maxVal := 2 ^ bitSize - 1 in
  match s with
  | [] => 0
  | c0 :: rest =>
      if base =? 0 then
        if Byte.eqb c0 "0"%byte then
          match rest with
          | c1 :: _ :: _ =>
              if lower (b2z c1) =? 98 then ParseUint_digits 2 maxVal (skipn 2 s) 0
              else if lower (b2z c1) =? 111 then ParseUint_digits 8 maxVal (skipn 2 s) 0
              else if lower (b2z c1) =? 120 then ParseUint_digits 16 maxVal (skipn 2 s) 0
              else ParseUint_digits 8 maxVal rest 0
          | _ => ParseUint_digits 8 maxVal rest 0
          end
        else ParseUint_digits 10 maxVal s 0
      else ParseUint_digits base maxVal s 0
  end.

(** The conversion [rune(v)] of a [uint64]: the low 32 bits, signed. *)
Definition rune (v : Z) : Z :=
  let m := v mod 2 ^ 32 in
  if m <? 2 ^ 31 then m else m - 2 ^ 32.

(** ** Write *)

Notation "' pat <- m ;; k" := (bind m (fun x => match x with pat => k end))
  (at level 61, pat pattern, m at next level, right associativity) : go_scope.

(** [b && m], with Go's short-circuit evaluation of the right operand. *)
Definition andM (b : bool) (m : M bool) : M bool := if b then m else ret false.

(** [source[j] == c]. *)
Definition byte_at_is (source : list byte) (j : Z) (c : byte) : M bool :=
  c1 <- index source j ;; ret (Byte.eqb c1 c).

Fixpoint readWhile_loop (fuel : nat) (source : list byte) (hi : Z)
    (pred : byte -> bool) (j : Z) (ok : bool) : M (Z * bool) :=
  if j <? hi then
    match fuel with
    | O => out_of_fuel
    | S fuel' =>
        c1 <- index source j ;;
        if pred c1 then readWhile_loop fuel' source hi pred (j + 1) true
        else ret (j, ok)
    end
  else ret (j, ok).

(** [readWhile(source, [2]int{lo, hi}, pred)]. *)
Definition readWhile (source : list byte) (lo hi : Z) (pred : byte -> bool)
    : M (Z * bool) :=
  readWhile_loop (length source) source hi pred lo false.

Section Writer.
Variable u : Util.

Definition escapeRune (r : Z) : M unit :=
  if r <? 256 then
    match htmlEscaleTable_at (z2b r) with
    | Some v => w_Write v
    | None => w_WriteRune (ToValidRune u r)
    end
  else w_WriteRune (ToValidRune u r).

(** The body of [if c == '&' { ... }] in [Write], at position [i] with
    pending run start [n].  [(Some n', i')] is a [continue] that leaves
    [n = n'] and [i = i']; [(None, i')] falls out of the block after
    [i = next - 1]. *)
Definition Write_reference (source : list byte) (limit n i : Z)
    : M (option Z * Z) :=
  let pos := i in
  let next := i + 1 in
  numeric <- andM (next <? limit) (byte_at_is source next "#"%byte) ;;
  if numeric then
    let nnext := next + 1 in
    nc <- index source nnext ;;
    if ((nnext <? limit) && Byte.eqb nc "x"%byte) || Byte.eqb nc "X"%byte then
      let start := nnext + 1 in
      ' (i, ok) <- readWhile source start limit (IsHexDecimal u) ;;
      closed <- andM (ok && (i <? limit)) (byte_at_is source i ";"%byte) ;;
      if closed then
        digits <- slice source start i ;;
        let v := ParseUint digits 16 32 in
        p <- slice source n pos ;;
        RawWrite p ;;;
        escapeRune (rune v) ;;;
        ret (Some (i + 1), i)
      else ret (None, next - 1)
    else if (b2z "0"%byte <=? b2z nc) && (b2z nc <=? b2z "9"%byte) then
      let start := nnext in
      ' (i, ok) <- readWhile source start limit (IsNumeric u) ;;
      closed <- andM (ok && (i <? limit) && (i - start <? 8))
                     (byte_at_is source i ";"%byte) ;;
      if closed then
        digits <- slice source start i ;;
        let v := ParseUint digits 0 32 in
        p <- slice source n pos ;;
        RawWrite p ;;;
        escapeRune (rune v) ;;;
        ret (Some (i + 1), i)
      else ret (None, next - 1)
    else ret (None, next - 1)
  else
    let start := next in
    ' (i, ok) <- readWhile source start limit (IsAlphaNumeric u) ;;
    closed <- andM (ok && (i <? limit)) (byte_at_is source i ";"%byte) ;;
    if closed then
      name <- slice source start i ;;
      match LookUpHTML5EntityByName u name with
      | Some characters =>
          p <- slice source n pos ;;
          RawWrite p ;;;
          RawWrite characters ;;;
          ret (Some (i + 1), i)
      | None => ret (None, next - 1)
      end
    else ret (None, next - 1).

(** One turn of the loop of [Write], up to but not including its [i++]:
    the new values of [escaped], [n] and [i]. *)
Definition Write_step (source : list byte) (limit : Z) (escaped : bool)
    (n i : Z) : M (bool * Z * Z) :=
  c <- index source i ;;
  if escaped && IsPunct u c then
    p <- slice source n (i - 1) ;;
    RawWrite p ;;;
    ret (false, i, i)
  else
    ' (cont, i') <- (if Byte.eqb c "&"%byte
                     then Write_reference source limit n i
                     else ret (None, i)) ;;
    match cont with
    | Some n' => ret (escaped, n', i')
    | None =>
        if Byte.eqb c "\"%byte then ret (true, n, i')
        else ret (false, n, i')
    end.

Fixpoint Write_loop (fuel : nat) (source : list byte) (limit : Z)
    (escaped : bool) (n i : Z) : M Z :=
  if i <? limit then
    match fuel with
    | O => out_of_fuel
    | S fuel' =>
        ' (escaped', n', i') <- Write_step source limit escaped n i ;;
        Write_loop fuel' source limit escaped' n' (i' + 1)
    end
  else ret n.

Definition Write (source : list byte) : M unit :=
  let limit := len source in
  n <- Write_loop (length source) source limit false 0 0 ;;
  p <- slice source n (len source) ;;
  RawWrite p.

End Writer.

(** A sample of the [util] package, to run the model on concrete inputs:
    the character classes as their names say, an entity table that holds the
    four entities of the escape table, [ToValidRune] replacing 0 and what is
    no Unicode scalar value by U+FFFD, [EscapeHTML] escaping the four
    metacharacters and [URLEscape] left as the identity. *)
Definition in_range (lo hi c : byte) : bool :=
  (b2z lo <=? b2z c) && (b2z c <=? b2z hi).

Definition sample_entities (name : list byte) : option (list byte) :=
  if list_eq_dec Byte.byte_eq_dec name (bs "amp") then Some (bs "&")
  else if list_eq_dec Byte.byte_eq_dec name (bs "quot") then Some [dquote]
  else if list_eq_dec Byte.byte_eq_dec name (bs "lt") then Some (bs "<")
  else if list_eq_dec Byte.byte_eq_dec name (bs "gt") then Some (bs ">")
  else None.

Definition util_sample : Util := {|
  IsPunct c := in_range "!" "/" c || in_range ":" "@" c
               || in_range "[" "`" c || in_range "{" "~" c;
  IsHexDecimal c := in_range "0" "9" c || in_range "a" "f" c || in_range "A" "F" c;
  IsNumeric c := in_range "0" "9" c;
  IsAlphaNumeric c := in_range "0" "9" c || in_range "a" "z" c || in_range "A" "Z" c;
  LookUpHTML5EntityByName := sample_entities;
  ToValidRune r :=
    if (r <=? 0) || (1114111 <? r) || ((55296 <=? r) && (r <=? 57343))
    then 65533 else r;
  EscapeHTML := escape_all;
  URLEscape s _ := s
|}.

(** ** The document tree *)

(** The packages [ast] and [text] are not part of this development; the
    renderer reads the tree through the fields and methods below.  A node
    is stored first child / next sibling, as [ast.BaseNode] links it. *)
Module ast.

(** [text.Segment]: the range [Start, Stop) of the source buffer. *)
Record Segment : Type := { Start : Z; Stop : Z }.

(** [Segment.Value(source)] is [source[Start:Stop]]. *)
Definition Value (seg : Segment) (source : list byte) : M (list byte) :=
  slice source (Start seg) (Stop seg).

(** The fields of [*ast.Text] that the renderer reads. *)
Record Text : Type := {
  Segment_ : Segment;
  IsRaw : bool;
  SoftLineBreak : bool;
  HardLineBreak : bool
}.

Inductive AutoLinkType : Type := AutoLinkEmail | AutoLinkURL.

(** The node types of the type switch in [Render], each with the fields
    read there; [Other] is any further implementation of [ast.Node]. *)
Inductive Kind : Type :=
| Document
| Heading (Level : Z) (ID : option (list byte))
| Blockquote
| CodeBlock (Lines : list Segment)
| FencedCodeBlock (Info : option Text) (Lines : list Segment)
| HTMLBlock (Lines : list Segment) (HasClosure : bool) (ClosureLine : Segment)
| List_ (IsOrdered : bool) (Start_ : Z)
| ListItem
| Paragraph
| TextBlock
| ThemanticBreak
| AutoLink (AutoLinkType_ : AutoLinkType) (Value_ : Text)
| CodeSpan
| Emphasis (Level : Z)
| Image (Destination : list byte) (Title : option (list byte))
| Link (Destination : list byte) (Title : option (list byte))
| RawHTML
| TextNode (t : Text)
| Other.

(** An [ast.Node] value: [Nil], or a node with its first child and its
    next sibling. *)
Inductive Node : Type :=
| Nil
| Mk (k : Kind) (firstChild nextSibling : Node).

Definition FirstChild (n : Node) : Node :=
  match n with Nil => Nil | Mk _ c _ => c end.

Definition NextSibling (n : Node) : Node :=
  match n with Nil => Nil | Mk _ _ s => s end.

Definition is_nil (n : Node) : bool :=
  match n with Nil => true | Mk _ _ _ => false end.

(** [ast.WalkStatus]. *)
Inductive WalkStatus : Type := WalkStop | WalkSkipChildren | WalkContinue.

End ast.

(** ** The renderer *)

(** [renderer.NotSupported], the only error of this package. *)
Inductive error : Type := NotSupported.

(** The interface [Writer]. *)
Record Writer : Type := {
  Writer_Write : list byte -> M unit;
  Writer_RawWrite : list byte -> M unit
}.

Definition DefaultWriter (u : Util) : Writer :=
  {| Writer_Write := Write u; Writer_RawWrite := RawWrite |}.

Record Config : Type := {
  Config_Writer : Writer;
  Config_SoftLineBreak : bool;
  Config_XHTML : bool
}.

Definition NewConfig (u : Util) : Config :=
  {| Config_Writer := DefaultWriter u;
     Config_SoftLineBreak := false;
     Config_XHTML := false |}.

(** The line feed, and byte sequences that hold a double quote. *)
Definition lf : byte := x0a.

Fixpoint bytes_eqb (a b : list byte) : bool :=
  match a, b with
  | [], [] => true
  | x :: a', y :: b' => Byte.eqb x y && bytes_eqb a' b'
  | _, _ => false
  end.

(** [bytes.HasPrefix] and [bytes.HasSuffix]. *)
Definition HasPrefix (s prefix : list byte) : bool :=
  (length prefix <=? length s)%nat && bytes_eqb (firstn (length prefix) s) prefix.

Definition HasSuffix (s suffix : list byte) : bool :=
  (length suffix <=? length s)%nat
  && bytes_eqb (skipn (length s - length suffix) s) suffix.

(** [fmt]'s [%d] of an [int]. *)
Definition format_d (z : Z) : list byte := bs (NilZero.string_of_int (Z.to_int z)).

(** The loop of [renderFencedCodeBlock] that finds the first space of the
    info string: the [i] it stops at. *)
Fixpoint first_space (info : list byte) (i : Z) : Z :=
  match info with
  | [] => i
  | c :: rest => if Byte.eqb c " "%byte then i else first_space rest (i + 1)
  end.

Section Renderer.
Variable u : Util.
(** [bytes.ToLower], of Go's library (it maps by Unicode), and the method
    [Text(source)] of a node, of the package [ast]: both taken as given. *)
Variable bytes_ToLower : list byte -> list byte.
Variable Node_Text : ast.Node -> list byte -> list byte.

Variable r : Config.

Import ast.

Fixpoint writeLines (source : list byte) (lines : list Segment) : M unit :=
  match lines with
  | [] => ret tt
  | line :: rest =>
      v <- Value line source ;;
      Writer_RawWrite (Config_Writer r) v ;;;
      writeLines source rest
  end.

Definition renderDocument (entering : bool) : M WalkStatus :=
  ret WalkContinue.

Definition renderHeading (Level : Z) (ID : option (list byte))
    (entering : bool) : M WalkStatus :=
  (if entering then
     w_WriteString "<h" ;;;
     c <- index (bs "0123456") Level ;;
     w_WriteByte c ;;;
     match ID with
     | Some id =>
         w_Write (bs " id=" ++ [dquote]) ;;;
         w_Write id ;;;
         w_WriteByte dquote
     | None => ret tt
     end ;;;
     w_WriteByte ">"%byte
   else
     w_WriteString "</h" ;;;
     c <- index (bs "0123456") Level ;;
     w_WriteByte c ;;;
     w_Write (bs ">" ++ [lf])) ;;;
  ret WalkContinue.

Definition renderBlockquote (entering : bool) : M WalkStatus :=
  (if entering then w_Write (bs "<blockquote>" ++ [lf])
   else w_Write (bs "</blockquote>" ++ [lf])) ;;;
  ret WalkContinue.

Definition renderCodeBlock (source : list byte) (Lines : list Segment)
    (entering : bool) : M WalkStatus :=
  (if entering then
     w_WriteString "<pre><code>" ;;;
     writeLines source Lines
   else w_Write (bs "</code></pre>" ++ [lf])) ;;;
  ret WalkContinue.

Definition renderFencedCodeBlock (source : list byte) (Info : option Text)
    (Lines : list Segment) (entering : bool) : M WalkStatus :=
  (if entering then
     w_WriteString "<pre><code" ;;;
     match Info with
     | Some t =>
         let segment := Segment_ t in
         info <- Value segment source ;;
         let i := first_space info 0 in
         language <- slice info 0 i ;;
         w_Write (bs " class=" ++ [dquote] ++ bs "language-") ;;;
         Writer_Write (Config_Writer r) language ;;;
         w_Write [dquote]
     | None => ret tt
     end ;;;
     w_WriteByte ">"%byte ;;;
     writeLines source Lines
   else w_Write (bs "</code></pre>" ++ [lf])) ;;;
  ret WalkContinue.

Fixpoint copyLines (source : list byte) (lines : list Segment) : M unit :=
  match lines with
  | [] => ret tt
  | line :: rest =>
      v <- Value line source ;;
      w_Write v ;;;
      copyLines source rest
  end.

Definition renderHTMLBlock (source : list byte) (Lines : list Segment)
    (HasClosure : bool) (ClosureLine : Segment) (entering : bool)
    : M WalkStatus :=
  (if entering then copyLines source Lines
   else if HasClosure then
     v <- Value ClosureLine source ;;
     w_Write v
   else ret tt) ;;;
  ret WalkContinue.

Definition renderList (IsOrdered : bool) (Start : Z) (entering : bool)
    : M WalkStatus :=
  let tag := if IsOrdered then "ol"%string else "ul"%string in
  (if entering then
     w_WriteByte "<"%byte ;;;
     w_WriteString tag ;;;
     if IsOrdered && negb (Start =? 1) then
       w_Write (bs " start=" ++ [dquote] ++ format_d Start
                ++ [dquote] ++ bs ">" ++ [lf])
     else w_Write (bs ">" ++ [lf])
   else
     w_WriteString "</" ;;;
     w_WriteString tag ;;;
     w_Write (bs ">" ++ [lf])) ;;;
  ret WalkContinue.

Definition renderListItem (n : Node) (entering : bool) : M WalkStatus :=
  (if entering then
     w_WriteString "<li>" ;;;
     let fc := FirstChild n in
     match fc with
     | Nil => ret tt
     | Mk TextBlock _ _ => ret tt
     | Mk _ _ _ => w_WriteByte lf
     end
   else w_Write (bs "</li>" ++ [lf])) ;;;
  ret WalkContinue.

Definition renderParagraph (entering : bool) : M WalkStatus :=
  (if entering then w_WriteString "<p>"
   else w_Write (bs "</p>" ++ [lf])) ;;;
  ret WalkContinue.

Definition renderTextBlock (n : Node) (entering : bool) : M WalkStatus :=
  if negb entering then
    (if negb (is_nil (NextSibling n)) && negb (is_nil (FirstChild n))
     then w_WriteByte lf else ret tt) ;;;
    ret WalkContinue
  else ret WalkContinue.

Definition renderThemanticBreak (entering : bool) : M WalkStatus :=
  if negb entering then ret WalkContinue
  else
    (if Config_XHTML r then w_Write (bs "<hr />" ++ [lf])
     else w_Write (bs "<hr>" ++ [lf])) ;;;
    ret WalkContinue.

Definition renderAutoLink (source : list byte) (typ : AutoLinkType)
    (Value_ : Text) (entering : bool) : M WalkStatus :=
  if negb entering then ret WalkContinue
  else
    w_Write (bs "<a href=" ++ [dquote]) ;;;
    let segment := Segment_ Value_ in
    value <- Value segment source ;;
    (if (match typ with AutoLinkEmail => true | AutoLinkURL => false end)
        && negb (HasPrefix (bytes_ToLower value) (bs "mailto:"))
     then w_WriteString "mailto:" else ret tt) ;;;
    w_Write (EscapeHTML u (URLEscape u value false)) ;;;
    w_Write ([dquote] ++ bs ">") ;;;
    w_Write (EscapeHTML u value) ;;;
    w_WriteString "</a>" ;;;
    ret WalkContinue.

(** The loop of [renderCodeSpan] over the children, from [c] on.  A child
    that is no [*ast.Text] fails the type assertion; [c != n.LastChild()]
    holds when [c] has a next sibling. *)
Fixpoint renderCodeSpan_children (source : list byte) (c : Node) : M unit :=
  match c with
  | Nil => ret tt
  | Mk k _ next =>
      match k with
      | TextNode t =>
          let segment := Segment_ t in
          value <- Value segment source ;;
          (if HasSuffix value [lf] then
             p <- slice value 0 (len value - 1) ;;
             Writer_RawWrite (Config_Writer r) p ;;;
             if negb (is_nil next)
             then Writer_RawWrite (Config_Writer r) (bs " ")
             else ret tt
           else Writer_RawWrite (Config_Writer r) value) ;;;
          renderCodeSpan_children source next
      | _ => panic
      end
  end.

Definition renderCodeSpan (source : list byte) (n : Node) (entering : bool)
    : M WalkStatus :=
  if entering then
    w_WriteString "<code>" ;;;
    renderCodeSpan_children source (FirstChild n) ;;;
    ret WalkSkipChildren
  else
    w_WriteString "</code>" ;;;
    ret WalkContinue.

Definition renderEmphasis (Level : Z) (entering : bool) : M WalkStatus :=
  let tag := if Level =? 2 then "strong"%string else "em"%string in
  (if entering then
     w_WriteByte "<"%byte ;;;
     w_WriteString tag ;;;
     w_WriteByte ">"%byte
   else
     w_WriteString "</" ;;;
     w_WriteString tag ;;;
     w_WriteByte ">"%byte) ;;;
  ret WalkContinue.

Definition write_title (Title : option (list byte)) : M unit :=
  match Title with
  | Some title =>
      w_Write (bs " title=" ++ [dquote]) ;;;
      Writer_Write (Config_Writer r) title ;;;
      w_WriteByte dquote
  | None => ret tt
  end.

Definition renderLink (Destination : list byte) (Title : option (list byte))
    (entering : bool) : M WalkStatus :=
  (if entering then
     w_Write (bs "<a href=" ++ [dquote]) ;;;
     w_Write (EscapeHTML u (URLEscape u Destination true)) ;;;
     w_WriteByte dquote ;;;
     write_title Title ;;;
     w_WriteByte ">"%byte
   else w_WriteString "</a>") ;;;
  ret WalkContinue.

Definition renderImage (source : list byte) (n : Node)
    (Destination : list byte) (Title : option (list byte))
    (entering : bool) : M WalkStatus :=
  if negb entering then ret WalkContinue
  else
    w_Write (bs "<img src=" ++ [dquote]) ;;;
    w_Write (EscapeHTML u (URLEscape u Destination true)) ;;;
    w_Write ([dquote] ++ bs " alt=" ++ [dquote]) ;;;
    w_Write (Node_Text n source) ;;;
    w_WriteByte dquote ;;;
    write_title Title ;;;
    (if Config_XHTML r then w_WriteString " />" else w_WriteString ">") ;;;
    ret WalkSkipChildren.

Definition renderRawHTML (entering : bool) : M WalkStatus :=
  ret WalkContinue.

Definition renderText (source : list byte) (t : Text) (entering : bool)
    : M WalkStatus :=
  if negb entering then ret WalkContinue
  else
    let segment := Segment_ t in
    (if IsRaw t then
       v <- Value segment source ;;
       w_Write v
     else
       v <- Value segment source ;;
       Writer_Write (Config_Writer r) v ;;;
       if HardLineBreak t || (SoftLineBreak t && Config_SoftLineBreak r) then
         if Config_XHTML r then w_Write (bs "<br />" ++ [lf])
         else w_Write (bs "<br>" ++ [lf])
       else if SoftLineBreak t then w_WriteByte lf
       else ret tt) ;;;
    ret WalkContinue.

(** [return r.renderX(...), nil]. *)
Definition no_error (m : M WalkStatus) : M (WalkStatus * option error) :=
  st <- m ;; ret (st, None).

Definition Render (source : list byte) (n : Node) (entering : bool)
    : M (WalkStatus * option error) :=
  match n with
  | Mk Document _ _ => no_error (renderDocument entering)
  | Mk (Heading Level ID) _ _ => no_error (renderHeading Level ID entering)
  | Mk Blockquote _ _ => no_error (renderBlockquote entering)
  | Mk (CodeBlock Lines) _ _ => no_error (renderCodeBlock source Lines entering)
  | Mk (FencedCodeBlock Info Lines) _ _ =>
      no_error (renderFencedCodeBlock source Info Lines entering)
  | Mk (HTMLBlock Lines HasClosure ClosureLine) _ _ =>
      no_error (renderHTMLBlock source Lines HasClosure ClosureLine entering)
  | Mk (List_ IsOrdered Start) _ _ => no_error (renderList IsOrdered Start entering)
  | Mk ListItem _ _ => no_error (renderListItem n entering)
  | Mk Paragraph _ _ => no_error (renderParagraph entering)
  | Mk TextBlock _ _ => no_error (renderTextBlock n entering)
  | Mk ThemanticBreak _ _ => no_error (renderThemanticBreak entering)
  | Mk (AutoLink typ Value_) _ _ =>
      no_error (renderAutoLink source typ Value_ entering)
  | Mk CodeSpan _ _ => no_error (renderCodeSpan source n entering)
  | Mk (Emphasis Level) _ _ => no_error (renderEmphasis Level entering)
  | Mk (Image Destination Title) _ _ =>
      no_error (renderImage source n Destination Title entering)
  | Mk (Link Destination Title) _ _ =>
      no_error (renderLink Destination Title entering)
  | Mk RawHTML _ _ => no_error (renderRawHTML entering)
  | Mk (TextNode t) _ _ => no_error (renderText source t entering)
  | Mk Other _ _ | Nil => ret (WalkContinue, Some NotSupported)
  end.

End Renderer.

(** [bytes.ToLower] on ASCII input, for concrete runs. *)
Definition ascii_ToLower (s : list byte) : list byte :=
  map (fun c => if in_range "A" "Z" c then z2b (b2z c + 32) else c) s.

(** ** Well-formed input *)

(** What the renderer assumes of its input and does not check again: every
    segment lies within the source buffer, a heading level indexes
    ["0123456"], the children of a code span are text nodes.  [write_safe]
    excludes the texts that end in [&#] (on which [Write] reads one byte past
    the end). *)
Definition seg_ok (source : list byte) (seg : ast.Segment) : bool :=
  (0 <=? ast.Start seg) && (ast.Start seg <=? ast.Stop seg)
  && (ast.Stop seg <=? len source).

Definition write_safe (v : list byte) : bool := negb (HasSuffix v (bs "&#")).

Fixpoint all_text_ok (source : list byte) (c : ast.Node) : bool :=
  match c with
  | ast.Nil => true
  | ast.Mk (ast.TextNode t) _ next =>
      seg_ok source (ast.Segment_ t) && all_text_ok source next
  | ast.Mk _ _ _ => false
  end.

Definition title_safe (Title : option (list byte)) : bool :=
  match Title with Some title => write_safe title | None => true end.

Definition well_formed (source : list byte) (n : ast.Node) (entering : bool) : bool :=
  match n with
  | ast.Mk (ast.Heading Level _) _ _ => (0 <=? Level) && (Level <=? 6)
  | ast.Mk (ast.CodeBlock Lines) _ _ =>
      negb entering || forallb (seg_ok source) Lines
  | ast.Mk (ast.FencedCodeBlock Info Lines) _ _ =>
      negb entering
      || (match Info with
          | Some t =>
              seg_ok source (ast.Segment_ t)
              && (let info := sub source (ast.Start (ast.Segment_ t))
                                  (ast.Stop (ast.Segment_ t)) in
                  write_safe (sub info 0 (first_space info 0)))
          | None => true
          end
          && forallb (seg_ok source) Lines)
  | ast.Mk (ast.HTMLBlock Lines HasClosure ClosureLine) _ _ =>
      if entering then forallb (seg_ok source) Lines
      else negb HasClosure || seg_ok source ClosureLine
  | ast.Mk (ast.AutoLink _ t) _ _ => negb entering || seg_ok source (ast.Segment_ t)
  | ast.Mk ast.CodeSpan c _ => negb entering || all_text_ok source c
  | ast.Mk (ast.Image _ Title) _ _ => negb entering || title_safe Title
  | ast.Mk (ast.Link _ Title) _ _ => negb entering || title_safe Title
  | ast.Mk (ast.TextNode t) _ _ =>
      negb entering
      || (seg_ok source (ast.Segment_ t)
          && (ast.IsRaw t
              || write_safe (sub source (ast.Start (ast.Segment_ t))
                                 (ast.Stop (ast.Segment_ t)))))
  | _ => true
  end.

(** ** The closed set of node kinds *)

(** The kinds that [Render] dispatches on. *)
Definition supported (n : ast.Node) : bool :=
  match n with
  | ast.Nil | ast.Mk ast.Other _ _ => false
  | ast.Mk _ _ _ => true
  end.

Definition is_CodeSpan (n : ast.Node) : bool :=
  match n with ast.Mk ast.CodeSpan _ _ => true | _ => false end.

Definition is_Image (n : ast.Node) : bool :=
  match n with ast.Mk (ast.Image _ _) _ _ => true | _ => false end.

Definition is_TextBlock (n : ast.Node) : bool :=
  match n with ast.Mk ast.TextBlock _ _ => true | _ => false end.

Definition is_email (typ : ast.AutoLinkType) : bool :=
  match typ with ast.AutoLinkEmail => true | ast.AutoLinkURL => false end.

(** ** Runs that return *)

(** [returns Q r]: the run [r] returns, with a value and a sink that
    satisfy [Q]. *)
Definition returns {A} (Q : A -> BufWriter -> Prop) (r : Res (A * BufWriter)) : Prop :=
  match r with
  | Ok (a, w) => Q a w
  | _ => False
  end.

(** What a run of the reference block of [Write] at [i] leaves: [i] within
    the input, and [n] just after it when the reference was decoded. *)
Definition reference_post (source : list byte) (i : Z) (res : option Z * Z)
    (_ : BufWriter) : Prop :=
  i <= snd res < len source /\
  match fst res with
  | Some n' => n' = snd res + 1
  | None => snd res = i
  end.

(** What one turn of the loop of [Write] at [i] leaves. *)
Definition step_post (source : list byte) (i : Z) (res : bool * Z * Z)
    (_ : BufWriter) : Prop :=
  let '(escaped', n', i') := res in
  i <= i' < len source /\ 0 <= n' <= i' + 1 /\ (escaped' = true -> n' <= i').

(** ** Directives *)

(** The render function [m] returns no directive but [c]. *)
Definition status_is (c : ast.WalkStatus) (m : M ast.WalkStatus) : Prop :=
  forall w st w', m w = Ok (st, w') -> st = c.

(** The directive of [Render] at a supported node: the children are skipped
    on entering a code span or an image. *)
Definition expected_status (n : ast.Node) (entering : bool) : ast.WalkStatus :=
  if entering && (is_CodeSpan n || is_Image n)
  then ast.WalkSkipChildren else ast.WalkContinue.

(** ** Sample input *)

(** A text node over the range [lo, hi) of the source, with no flag set. *)
Definition text_at (lo hi : Z) : ast.Text :=
  {| ast.Segment_ := {| ast.Start := lo; ast.Stop := hi |};
     ast.IsRaw := false;
     ast.SoftLineBreak := false;
     ast.HardLineBreak := false |}.

(** The default renderer over the sample [util]. *)
Definition sample_Render : list byte -> ast.Node -> bool -> M (ast.WalkStatus * option error) :=
  Render util_sample ascii_ToLower (fun _ _ => []) (NewConfig util_sample).

(** ** What the writer leaves in the sink *)

(** [m] leaves the sink as it is. *)
Definition keeps_sink {A} (m : M A) : Prop :=
  forall w a w', m w = Ok (a, w') -> w' = w.

(** [m] only appends escaped text to the sink. *)
Definition appends_escaped {A} (m : M A) : Prop :=
  forall w a w', m w = Ok (a, w') -> exists t, w' = w ++ escape_all t.

(** A byte that [Write] passes over: neither [&] nor a backslash. *)
Definition plain_byte (c : byte) : Prop := c <> "&"%byte /\ c <> "\"%byte.

(** The number that a run of decimal digits denotes. *)
Definition decimal_value (ds : list byte) : Z :=
  fold_left (fun acc c => acc * 10 + (b2z c - 48)) ds 0.

(** ** Options *)

(** The three options of this package ([withWriter], [withSoftLineBreak],
    [withXHTML]), as values of the interface [Option]. *)
Inductive Option_ : Type :=
| WithWriter (value : Writer)
| WithSoftLineBreak
| WithXHTML.

(** [o.SetHTMLOption(c)]. *)
Definition SetHTMLOption (o : Option_) (c : Config) : Config :=
  match o with
  | WithWriter value =>
      {| Config_Writer := value;
         Config_SoftLineBreak := Config_SoftLineBreak c;
         Config_XHTML := Config_XHTML c |}
  | WithSoftLineBreak =>
      {| Config_Writer := Config_Writer c;
         Config_SoftLineBreak := true;
         Config_XHTML := Config_XHTML c |}
  | WithXHTML =>
      {| Config_Writer := Config_Writer c;
         Config_SoftLineBreak := Config_SoftLineBreak c;
         Config_XHTML := true |}
  end.

(** [NewRenderer(opts...)]: the renderer is its [Config]. *)
Definition NewRenderer (u : Util) (opts : list Option_) : Config :=
  fold_left (fun c opt => SetHTMLOption opt c) opts (NewConfig u).

(** A value of type [interface{}], as [SetOption] receives it. *)
Inductive Value : Type :=
| VBool (b : bool)
| VWriter (value : Writer)
| VOther.

(** The option names [SoftLineBreak], [XHTML] and [TextWriter]. *)
Definition name_SoftLineBreak : string := "SoftLineBreak".
Definition name_XHTML : string := "XHTML".
Definition name_TextWriter : string := "Writer".

(** [c.SetOption(name, value)]: a type assertion that fails panics. *)
Definition SetOption (c : Config) (name : string) (value : Value) : Res Config :=
  if String.eqb name name_SoftLineBreak then
    match value with
    | VBool b =>
        Ok {| Config_Writer := Config_Writer c;
              Config_SoftLineBreak := b;
              Config_XHTML := Config_XHTML c |}
    | _ => Panic
    end
  else if String.eqb name name_XHTML then
    match value with
    | VBool b =>
        Ok {| Config_Writer := Config_Writer c;
              Config_SoftLineBreak := Config_SoftLineBreak c;
              Config_XHTML := b |}
    | _ => Panic
    end
  else if String.eqb name name_TextWriter then
    match value with
    | VWriter wr =>
        Ok {| Config_Writer := wr;
              Config_SoftLineBreak := Config_SoftLineBreak c;
              Config_XHTML := Config_XHTML c |}
    | _ => Panic
    end
  else Ok c.




Definition is_WithXHTML (o : Option_) : bool :=
  match o with WithXHTML => true | _ => false end.
Definition is_WithSoftLineBreak (o : Option_) : bool :=
  match o with WithSoftLineBreak => true | _ => false end.

(** The writer of the last [WithWriter] of [opts], [d] when there is none. *)
Fixpoint last_writer (d : Writer) (opts : list Option_) : Writer :=
  match opts with
  | [] => d
  | WithWriter value :: rest => last_writer value rest
  | _ :: rest => last_writer d rest
  end.

(** ** What a node renders *)

(** The bytes of the lines of a block. *)
Definition lines_value (source : list byte) (lines : list ast.Segment) : list byte :=
  concat (map (fun seg => sub source (ast.Start seg) (ast.Stop seg)) lines).

(** The language of an info string: what precedes its first space. *)
Definition language_of (info : list byte) : list byte :=
  sub info 0 (first_space info 0).

(** What follows the text of a text node. *)
Definition text_break (r : Config) (t : ast.Text) : list byte :=
  if ast.HardLineBreak t || (ast.SoftLineBreak t && Config_SoftLineBreak r) then
    if Config_XHTML r then bs "<br />" ++ [lf] else bs "<br>" ++ [lf]
  else if ast.SoftLineBreak t then [lf]
  else [].


(** The calls of [Render] that write nothing. *)
Definition silent (n : ast.Node) (entering : bool) : bool :=
  match n with
  | ast.Mk ast.Document _ _ | ast.Mk ast.RawHTML _ _ => true
  | ast.Mk ast.TextBlock _ _ => entering
  | ast.Mk ast.ThemanticBreak _ _ | ast.Mk (ast.AutoLink _ _) _ _
  | ast.Mk (ast.Image _ _) _ _ | ast.Mk (ast.TextNode _) _ _ => negb entering
  | _ => false
  end.

(** The digit of a heading level. *)
Definition heading_digit (Level : Z) : byte := z2b (48 + Level).

(** The lines of the sample code blocks. *)
Definition sample_lines : list ast.Segment :=
  [ {| ast.Start := 3; ast.Stop := 7 |}; {| ast.Start := 7; ast.Stop := 8 |} ].

(** * Properties *)

(** ** Slices *)

Lemma len_nonneg {A} (s : list A) : 0 <= len s.
Proof. unfold len. lia. Qed.

Lemma index_ok (s : list byte) (i : Z) (w : BufWriter) :
  0 <= i < len s ->
  exists c, nth_error s (Z.to_nat i) = Some c /\ index s i w = Ok (c, w).
Proof.
  intros Hi. unfold index, len in *.
  destruct (nth_error s (Z.to_nat i)) as [c|] eqn:E.
  - exists c. split; [reflexivity|].
    replace (0 <=? i) with true by (symmetry; apply Z.leb_le; lia).
    replace (i <? Z.of_nat (length s)) with true by (symmetry; apply Z.ltb_lt; lia).
    reflexivity.
  - apply nth_error_None in E. lia.
Qed.

Lemma index_inv (s : list byte) (i : Z) (w : BufWriter) r :
  index s i w = Ok r ->
  0 <= i < len s /\ nth_error s (Z.to_nat i) = Some (fst r) /\ snd r = w.
Proof.
  unfold index. intros H.
  destruct (0 <=? i) eqn:E1; [|discriminate].
  destruct (i <? len s) eqn:E2; [|discriminate].
  simpl in H. apply Z.leb_le in E1. apply Z.ltb_lt in E2.
  destruct (nth_error s (Z.to_nat i)); [|discriminate].
  inversion H; subst; simpl. auto.
Qed.

Lemma index_out (s : list byte) (i : Z) (w : BufWriter) :
  len s <= i -> index s i w = Panic.
Proof.
  intros H. unfold index.
  replace (i <? len s) with false by (symmetry; apply Z.ltb_ge; lia).
  rewrite andb_false_r. reflexivity.
Qed.

Lemma slice_ok (s : list byte) (lo hi : Z) (w : BufWriter) :
  0 <= lo <= hi -> hi <= len s -> slice s lo hi w = Ok (sub s lo hi, w).
Proof.
  intros H1 H2. unfold slice.
  replace (0 <=? lo) with true by (symmetry; apply Z.leb_le; lia).
  replace (lo <=? hi) with true by (symmetry; apply Z.leb_le; lia).
  replace (hi <=? len s) with true by (symmetry; apply Z.leb_le; lia).
  reflexivity.
Qed.

Lemma sub_empty (s : list byte) (i : Z) : sub s i i = [].
Proof. unfold sub. rewrite Z.sub_diag. reflexivity. Qed.

Lemma sub_all (s : list byte) : sub s 0 (len s) = s.
Proof.
  unfold sub, len. rewrite Z.sub_0_r, Nat2Z.id. simpl.
  apply firstn_all.
Qed.

Lemma firstn_snoc {A} (t : list A) (k : nat) (c : A) :
  nth_error t k = Some c -> firstn (S k) t = firstn k t ++ [c].
Proof.
  revert t. induction k as [|k IH]; intros [|x t] H; simpl in *; try discriminate.
  - inversion H. reflexivity.
  - rewrite <- IH by assumption. reflexivity.
Qed.

Lemma sub_snoc (s : list byte) (lo i : Z) (c : byte) :
  0 <= lo <= i -> nth_error s (Z.to_nat i) = Some c ->
  sub s lo (i + 1) = sub s lo i ++ [c].
Proof.
  intros H E. unfold sub.
  replace (Z.to_nat (i + 1 - lo)) with (S (Z.to_nat (i - lo))) by lia.
  apply firstn_snoc. rewrite nth_error_skipn.
  replace (Z.to_nat lo + Z.to_nat (i - lo))%nat with (Z.to_nat i) by lia.
  exact E.
Qed.

Lemma skipn_nth_cons {A} (s : list A) (k : nat) (c : A) :
  nth_error s k = Some c -> skipn k s = c :: skipn (S k) s.
Proof.
  revert s. induction k as [|k IH]; intros [|x s] H; simpl in *; try discriminate.
  - inversion H. reflexivity.
  - apply IH. exact H.
Qed.

(** ** The escape table *)

Lemma table_some (c : byte) (v : list byte) :
  htmlEscaleTable_at c = Some v -> is_meta c = true /\ escape_byte c = v.
Proof.
  destruct c; vm_compute; intros H; try discriminate; inversion H; auto.
Qed.

Lemma table_none (c : byte) :
  htmlEscaleTable_at c = None -> is_meta c = false /\ escape_byte c = [c].
Proof.
  destruct c; vm_compute; intros H; try discriminate; auto.
Qed.

(** ** RawWrite *)

(** The loop invariant of [RawWrite]: what has been written, followed by the
    pending run, is the escaped prefix. *)
Lemma RawWrite_loop_spec (source : list byte) (fuel : nat) :
  forall (i n : Z) (w : BufWriter),
    0 <= n <= i -> i <= len source -> (Z.to_nat (len source - i) <= fuel)%nat ->
    exists n' w',
      RawWrite_loop fuel source (len source) i n w = Ok (n', w') /\
      0 <= n' <= len source /\
      w' ++ sub source (len source - n') (len source)
        = w ++ sub source (i - n) i ++ escape_all (skipn (Z.to_nat i) source).
Proof.
  induction fuel as [|fuel IH]; intros i n w Hn Hi Hf.
  - assert (i = len source) by lia. subst i. simpl.
    rewrite Z.ltb_irrefl. exists n, w. split; [reflexivity|]. split; [lia|].
    unfold len at 5. rewrite Nat2Z.id, skipn_all. simpl. rewrite app_nil_r. reflexivity.
  - simpl. destruct (i <? len source) eqn:E.
    + apply Z.ltb_lt in E.
      destruct (index_ok source i w) as (c & Hc & Hidx); [lia|].
      unfold bind at 1. rewrite Hidx.
      rewrite (skipn_nth_cons _ _ _ Hc).
      replace (S (Z.to_nat i)) with (Z.to_nat (i + 1)) by lia.
      destruct (htmlEscaleTable_at c) as [v|] eqn:T.
      * apply table_some in T. destruct T as [_ T].
        unfold bind at 1. rewrite slice_ok by lia.
        unfold bind at 1, w_Write at 1. unfold bind at 1, w_Write at 1.
        destruct (IH (i + 1) 0 ((w ++ sub source (i - n) i) ++ v)) as (n' & w' & R & Hn' & Heq);
          [lia|lia|lia|].
        exists n', w'. split; [exact R|]. split; [exact Hn'|].
        rewrite Heq. rewrite Z.sub_0_r, sub_empty. simpl.
        unfold escape_all. simpl. rewrite T. rewrite <- !app_assoc. reflexivity.
      * apply table_none in T. destruct T as [_ T].
        destruct (IH (i + 1) (n + 1) w) as (n' & w' & R & Hn' & Heq); [lia|lia|lia|].
        exists n', w'. split; [exact R|]. split; [exact Hn'|].
        rewrite Heq. replace (i + 1 - (n + 1)) with (i - n) by lia.
        rewrite (sub_snoc source (i - n) i c) by (try lia; exact Hc).
        unfold escape_all. simpl. rewrite T. rewrite <- !app_assoc. reflexivity.
    + apply Z.ltb_ge in E. assert (i = len source) by lia. subst i.
      exists n, w. split; [reflexivity|]. split; [lia|].
      unfold len at 5. rewrite Nat2Z.id, skipn_all. simpl. rewrite app_nil_r. reflexivity.
Qed.

(** [RawWrite] always returns, having appended the escaped input. *)
Lemma RawWrite_spec (source : list byte) (w : BufWriter) :
  RawWrite source w = Ok (tt, w ++ escape_all source).
Proof.
  unfold RawWrite.
  destruct (RawWrite_loop_spec source (length source) 0 0 w) as (n' & w' & R & Hn' & Heq).
  - lia.
  - apply len_nonneg.
  - unfold len. lia.
  - unfold bind at 1. fold (len source). rewrite R.
    rewrite Z.sub_0_r, sub_empty in Heq. simpl in Heq.
    destruct (n' =? 0) eqn:E; simpl.
    + apply Z.eqb_eq in E. subst n'. rewrite Z.sub_0_r, sub_empty, app_nil_r in Heq.
      unfold ret. rewrite Heq. reflexivity.
    + unfold bind. rewrite slice_ok by lia. unfold w_Write. rewrite Heq. reflexivity.
Qed.

Lemma escape_byte_length (c : byte) : (1 <= length (escape_byte c))%nat.
Proof. destruct c; vm_compute; lia. Qed.

Lemma escape_all_length (s : list byte) : (length s <= length (escape_all s))%nat.
Proof.
  induction s as [|c s IH]; simpl; [lia|].
  rewrite length_app. pose proof (escape_byte_length c). lia.
Qed.

Lemma escape_all_plain (s : list byte) :
  (forall c, In c s -> is_meta c = false) -> escape_all s = s.
Proof.
  induction s as [|c s IH]; intros H; simpl; [reflexivity|].
  rewrite IH by (intros; apply H; right; assumption).
  assert (Hc : is_meta c = false) by (apply H; left; reflexivity).
  clear - Hc. destruct c; try reflexivity; discriminate.
Qed.

Lemma replacement_meta (e : list byte) (k : nat) (c : byte) :
  In e replacements -> nth_error e k = Some c -> is_meta c = true ->
  k = O /\ c = "&"%byte.
Proof.
  intros He Hk Hc. unfold replacements in He. simpl in He.
  destruct He as [<-|[<-|[<-|[<-|[]]]]];
    (destruct k as [|k]; simpl in Hk; [inversion Hk; subst; auto|]);
    do 6 (try (destruct k as [|k]; simpl in Hk;
               [inversion Hk; subst; discriminate|]));
    destruct k; discriminate.
Qed.

Lemma table_some_replacement (c : byte) (v : list byte) :
  htmlEscaleTable_at c = Some v -> In v replacements.
Proof.
  destruct c; vm_compute; intros H; try discriminate; inversion H; auto.
Qed.

(** In the escaped text a metacharacter occurs only as the [&] that opens a
    replacement sequence. *)
Lemma escape_all_meta (s : list byte) :
  forall (k : nat) (c : byte),
    nth_error (escape_all s) k = Some c -> is_meta c = true ->
    c = "&"%byte /\ escaped_at (escape_all s) k.
Proof.
  induction s as [|a s IH]; intros k c Hk Hc.
  - destruct k; discriminate.
  - simpl in *. destruct (htmlEscaleTable_at a) as [v|] eqn:T.
    + pose proof (table_some_replacement _ _ T) as Hv.
      apply table_some in T. destruct T as [_ T]. rewrite T in *.
      destruct (Nat.lt_ge_cases k (length v)) as [Hlt|Hge].
      * rewrite nth_error_app1 in Hk by assumption.
        destruct (replacement_meta v k c Hv Hk Hc) as [-> ->].
        split; [reflexivity|]. exists v. split; [assumption|].
        simpl. rewrite firstn_app, Nat.sub_diag, firstn_all. simpl.
        apply app_nil_r.
      * rewrite nth_error_app2 in Hk by assumption.
        destruct (IH _ _ Hk Hc) as [-> (e & He & Hf)].
        split; [reflexivity|]. exists e. split; [assumption|].
        rewrite skipn_app.
        rewrite (skipn_all2 v) by assumption. simpl. exact Hf.
    + apply table_none in T. destruct T as [Hm T]. rewrite T in *.
      destruct k as [|k]; simpl in Hk.
      * inversion Hk; subst. congruence.
      * destruct (IH _ _ Hk Hc) as [-> (e & He & Hf)].
        split; [reflexivity|]. exists e. split; assumption.
Qed.

(** ** Write on plain text *)

Section WriteProperties.
Variable u : Util.

Lemma nth_error_In_Z (s : list byte) (i : Z) (c : byte) :
  nth_error s (Z.to_nat i) = Some c -> In c s.
Proof. apply nth_error_In. Qed.

(** On a turn at a byte that is neither [&] nor a backslash, with
    [escaped] false, nothing is written and nothing changes. *)
Lemma Write_step_plain (source : list byte) (n i : Z) (w : BufWriter) (c : byte) :
  0 <= i < len source -> nth_error source (Z.to_nat i) = Some c ->
  Byte.eqb c "&"%byte = false -> Byte.eqb c "\"%byte = false ->
  Write_step u source (len source) false n i w = Ok ((false, n, i), w).
Proof.
  intros Hi Hc Ha Hb. unfold Write_step.
  destruct (index_ok source i w Hi) as (c' & Hc' & Hidx).
  assert (c' = c) by congruence. subst c'.
  unfold bind at 1. rewrite Hidx. simpl. rewrite Ha.
  unfold bind, ret. rewrite Hb. reflexivity.
Qed.

Lemma Write_loop_plain (source : list byte) (fuel : nat) :
  (forall c, In c source ->
     Byte.eqb c "&"%byte = false /\ Byte.eqb c "\"%byte = false) ->
  forall (n i : Z) (w : BufWriter),
    0 <= i <= len source -> (Z.to_nat (len source - i) <= fuel)%nat ->
    Write_loop u fuel source (len source) false n i w = Ok (n, w).
Proof.
  intros Hplain. induction fuel as [|fuel IH]; intros n i w Hi Hf.
  - simpl. replace (i <? len source) with false
      by (symmetry; apply Z.ltb_ge; lia). reflexivity.
  - simpl. destruct (i <? len source) eqn:E; [|reflexivity].
    apply Z.ltb_lt in E.
    destruct (index_ok source i w) as (c & Hc & _); [lia|].
    destruct (Hplain c (nth_error_In _ _ Hc)) as [Ha Hb].
    unfold bind at 1.
    rewrite (Write_step_plain source n i w c) by (assumption || lia).
    apply IH; lia.
Qed.

End WriteProperties.

(** ** Write returns *)

Lemma bind_ok {A B} (m : M A) (k : A -> M B) (w w' : BufWriter) (a : A) :
  m w = Ok (a, w') -> bind m k w = k a w'.
Proof. intros H. unfold bind. rewrite H. reflexivity. Qed.

Lemma readWhile_loop_ok (source : list byte) (pred : byte -> bool) (fuel : nat) :
  forall (j : Z) (ok : bool) (w : BufWriter),
    0 <= j <= len source -> (Z.to_nat (len source - j) <= fuel)%nat ->
    exists j' ok',
      readWhile_loop fuel source (len source) pred j ok w = Ok ((j', ok'), w) /\
      j <= j' <= len source.
Proof.
  induction fuel as [|fuel IH]; intros j ok w Hj Hf; simpl.
  - replace (j <? len source) with false by (symmetry; apply Z.ltb_ge; lia).
    exists j, ok. split; [reflexivity|lia].
  - destruct (j <? len source) eqn:E.
    + apply Z.ltb_lt in E.
      destruct (index_ok source j w) as (c & _ & Hidx); [lia|].
      rewrite (bind_ok _ _ _ _ _ Hidx).
      destruct (pred c).
      * destruct (IH (j + 1) true w) as (j' & ok' & R & Hb); [lia|lia|].
        exists j', ok'. split; [exact R|lia].
      * exists j, ok. split; [reflexivity|lia].
    + exists j, ok. split; [reflexivity|lia].
Qed.

Lemma readWhile_ok (source : list byte) (pred : byte -> bool) (lo : Z) (w : BufWriter) :
  0 <= lo <= len source ->
  exists j ok,
    readWhile source lo (len source) pred w = Ok ((j, ok), w) /\
    lo <= j <= len source.
Proof.
  intros H. unfold readWhile. apply readWhile_loop_ok; [assumption|].
  unfold len in *. lia.
Qed.

Lemma escapeRune_ok (u : Util) (r : Z) (w : BufWriter) :
  exists out, escapeRune u r w = Ok (tt, w ++ out).
Proof.
  unfold escapeRune.
  destruct (r <? 256); [destruct (htmlEscaleTable_at (z2b r))|];
    eexists; reflexivity.
Qed.

Lemma HasSuffix_two (s : list byte) (a b : byte) :
  2 <= len s ->
  nth_error s (Z.to_nat (len s - 2)) = Some a ->
  nth_error s (Z.to_nat (len s - 1)) = Some b ->
  HasSuffix s [a; b] = true.
Proof.
  intros Hl Ha Hb. unfold HasSuffix, len in *. simpl length.
  replace (2 <=? length s)%nat with true by (symmetry; apply Nat.leb_le; lia).
  simpl.
  replace (Z.to_nat (Z.of_nat (length s) - 2)) with (length s - 2)%nat in Ha by lia.
  replace (Z.to_nat (Z.of_nat (length s) - 1)) with (S (length s - 2))%nat in Hb by lia.
  rewrite (skipn_nth_cons _ _ _ Ha), (skipn_nth_cons _ _ _ Hb).
  rewrite skipn_all2 by lia. simpl.
  rewrite !(Byte.byte_dec_lb eq_refl). reflexivity.
Qed.

Lemma returns_bind {A B} (m : M A) (k : A -> M B) (w : BufWriter) Q :
  returns (fun a w' => returns Q (k a w')) (m w) -> returns Q (bind m k w).
Proof. unfold bind, returns. destruct (m w) as [[a w']| |]; auto. Qed.

Lemma returns_weaken {A} (P Q : A -> BufWriter -> Prop) r :
  (forall a w, P a w -> Q a w) -> returns P r -> returns Q r.
Proof. intros H. destruct r as [[a w]| |]; simpl; auto. Qed.

Lemma returns_index (s : list byte) (j : Z) (w : BufWriter) Q :
  0 <= j < len s ->
  (forall c, nth_error s (Z.to_nat j) = Some c -> Q c w) ->
  returns Q (index s j w).
Proof.
  intros Hj H. destruct (index_ok s j w Hj) as (c & Hc & ->). simpl. auto.
Qed.

Lemma returns_slice (s : list byte) (lo hi : Z) (w : BufWriter) Q :
  0 <= lo <= hi -> hi <= len s -> Q (sub s lo hi) w ->
  returns Q (slice s lo hi w).
Proof. intros H1 H2 H. rewrite slice_ok by assumption. exact H. Qed.

Lemma returns_RawWrite (s : list byte) (w : BufWriter) Q :
  Q tt (w ++ escape_all s) -> returns Q (RawWrite s w).
Proof. intros H. rewrite RawWrite_spec. exact H. Qed.

Lemma returns_escapeRune (u : Util) (r : Z) (w : BufWriter) Q :
  (forall out, Q tt (w ++ out)) -> returns Q (escapeRune u r w).
Proof. intros H. destruct (escapeRune_ok u r w) as (out & ->). apply H. Qed.

Lemma returns_readWhile (s : list byte) (pred : byte -> bool) (lo : Z) (w : BufWriter) Q :
  0 <= lo <= len s ->
  (forall j ok, lo <= j <= len s -> Q (j, ok) w) ->
  returns Q (readWhile s lo (len s) pred w).
Proof.
  intros Hlo H. destruct (readWhile_ok s pred lo w Hlo) as (j & ok & -> & Hj).
  simpl. auto.
Qed.

(** [source[j] == ';'] guarded by [b && j < limit], as [Write] tests it. *)
Lemma returns_closed (s : list byte) (b : bool) (j : Z) (c : byte) (w : BufWriter) Q :
  0 <= j ->
  (forall r : bool, (r = true -> j < len s) -> Q r w) ->
  returns Q (andM (b && (j <? len s)) (byte_at_is s j c) w).
Proof.
  intros Hj H. destruct b; simpl; [|apply H; discriminate].
  destruct (j <? len s) eqn:E; simpl; [|apply H; discriminate].
  apply Z.ltb_lt in E. unfold byte_at_is. apply returns_bind.
  apply returns_index; [lia|]. intros c1 _. simpl. apply H. intros _. exact E.
Qed.

Section WriteTotal.
Variable u : Util.
Variable source : list byte.
Hypothesis Hsafe : HasSuffix source (bs "&#") = false.

Lemma Write_reference_returns (n i : Z) (w : BufWriter) :
  0 <= n <= i -> i < len source ->
  nth_error source (Z.to_nat i) = Some "&"%byte ->
  returns (reference_post source i) (Write_reference u source (len source) n i w).
Proof.
  intros Hn Hi Hamp. unfold Write_reference.
  assert (Hfail : forall w0, returns (reference_post source i) (ret (None, i + 1 - 1) w0)).
  { intros w0. simpl. unfold reference_post. simpl. lia. }
  apply returns_bind.
  destruct (i + 1 <? len source) eqn:E1; simpl.
  - apply Z.ltb_lt in E1. unfold byte_at_is. apply returns_bind.
    apply returns_index; [lia|]. intros c1 Hc1. simpl.
    destruct (Byte.eqb c1 "#"%byte) eqn:E2.
    + apply Byte.byte_dec_bl in E2. subst c1.
      assert (Hnn : i + 1 + 1 < len source).
      { destruct (Z.lt_ge_cases (i + 1 + 1) (len source)) as [|Hge]; [assumption|].
        exfalso. assert (Hl : len source = i + 2) by lia.
        assert (Hs : HasSuffix source (bs "&#") = true); [|congruence].
        apply HasSuffix_two.
        - lia.
        - rewrite Hl. replace (i + 2 - 2) with i by lia. exact Hamp.
        - rewrite Hl. replace (i + 2 - 1) with (i + 1) by lia. exact Hc1. }
      apply returns_bind. apply returns_index; [lia|]. intros nc _.
      destruct (((i + 1 + 1 <? len source) && Byte.eqb nc "x"%byte)
                || Byte.eqb nc "X"%byte).
      * apply returns_bind. apply returns_readWhile; [lia|]. intros j ok Hj.
        apply returns_bind. apply returns_closed; [lia|]. intros [|] Hlt; [|apply Hfail].
        specialize (Hlt eq_refl).
        apply returns_bind. apply returns_slice; [lia|lia|].
        apply returns_bind. apply returns_slice; [lia|lia|].
        apply returns_bind. apply returns_RawWrite.
        apply returns_bind. apply returns_escapeRune. intros out.
        simpl. unfold reference_post. simpl. lia.
      * destruct ((b2z "0"%byte <=? b2z nc) && (b2z nc <=? b2z "9"%byte)); [|apply Hfail].
        apply returns_bind. apply returns_readWhile; [lia|]. intros j ok Hj.
        apply returns_bind.
        rewrite <- andb_assoc, (andb_comm (j <? len source)), andb_assoc.
        apply returns_closed; [lia|]. intros [|] Hlt; [|apply Hfail].
        specialize (Hlt eq_refl).
        apply returns_bind. apply returns_slice; [lia|lia|].
        apply returns_bind. apply returns_slice; [lia|lia|].
        apply returns_bind. apply returns_RawWrite.
        apply returns_bind. apply returns_escapeRune. intros out.
        simpl. unfold reference_post. simpl. lia.
    + apply returns_bind. apply returns_readWhile; [lia|]. intros j ok Hj.
      apply returns_bind. apply returns_closed; [lia|]. intros [|] Hlt; [|apply Hfail].
      specialize (Hlt eq_refl).
      apply returns_bind. apply returns_slice; [lia|lia|].
      destruct (LookUpHTML5EntityByName u _); [|apply Hfail].
      apply returns_bind. apply returns_slice; [lia|lia|].
      apply returns_bind. apply returns_RawWrite.
      apply returns_bind. apply returns_RawWrite.
      simpl. unfold reference_post. simpl. lia.
  - apply Z.ltb_ge in E1.
    apply returns_bind. apply returns_readWhile; [lia|]. intros j ok Hj.
    apply returns_bind. apply returns_closed; [lia|]. intros [|] Hlt; [|apply Hfail].
    specialize (Hlt eq_refl). lia.
Qed.

Hypothesis Hpunct : IsPunct u "&"%byte = true.

Lemma Write_step_returns (escaped : bool) (n i : Z) (w : BufWriter) :
  0 <= n <= i -> i < len source -> (escaped = true -> n < i) ->
  returns (step_post source i) (Write_step u source (len source) escaped n i w).
Proof.
  intros Hn Hi He. unfold Write_step.
  apply returns_bind. apply returns_index; [lia|]. intros c Hc.
  destruct (escaped && IsPunct u c) eqn:E.
  - apply andb_prop in E. destruct E as [-> _]. specialize (He eq_refl).
    apply returns_bind. apply returns_slice; [lia|lia|].
    apply returns_bind. apply returns_RawWrite.
    simpl. lia.
  - apply returns_bind. destruct (Byte.eqb c "&"%byte) eqn:Ea.
    + apply Byte.byte_dec_bl in Ea. subst c.
      rewrite Hpunct, andb_true_r in E. subst escaped.
      eapply returns_weaken; [|apply Write_reference_returns; assumption || lia].
      intros [cont i'] w' [Hi' Hcont]. simpl in *.
      destruct cont as [n'|]; simpl; lia.
    + simpl. destruct (Byte.eqb c "\"%byte); simpl; repeat split; lia.
Qed.

Lemma Write_loop_returns (fuel : nat) :
  forall (escaped : bool) (n i : Z) (w : BufWriter),
    0 <= n <= i -> i <= len source -> (escaped = true -> n < i) ->
    (Z.to_nat (len source - i) <= fuel)%nat ->
    returns (fun n' _ => 0 <= n' <= len source)
            (Write_loop u fuel source (len source) escaped n i w).
Proof.
  induction fuel as [|fuel IH]; intros escaped n i w Hn Hi He Hf; simpl.
  - replace (i <? len source) with false by (symmetry; apply Z.ltb_ge; lia).
    simpl. lia.
  - destruct (i <? len source) eqn:E; [|simpl; lia].
    apply Z.ltb_lt in E. apply returns_bind.
    eapply returns_weaken; [|apply Write_step_returns; assumption || lia].
    intros [[escaped' n'] i'] w' (H1 & H2 & H3).
    apply IH; try lia. intros H. specialize (H3 H). lia.
Qed.

(** [Write] returns on every input that does not end in [&#]. *)
Lemma Write_returns (w : BufWriter) :
  exists w', Write u source w = Ok (tt, w').
Proof.
  assert (H : returns (fun _ _ => True) (Write u source w)).
  { unfold Write. apply returns_bind.
    eapply returns_weaken; [|apply (Write_loop_returns (length source) false 0 0 w)].
    - intros n' w' Hn'. simpl in Hn'. apply returns_bind. apply returns_slice; [lia|lia|].
      apply returns_RawWrite. exact I.
    - lia.
    - apply len_nonneg.
    - discriminate.
    - unfold len. lia. }
  destruct (Write u source w) as [[[] w']| |]; simpl in H; try contradiction.
  exists w'. reflexivity.
Qed.
End WriteTotal.

(** ** The directive of a render function *)

Lemma status_is_ret (c : ast.WalkStatus) : status_is c (ret c).
Proof. intros w st w' H. inversion H. reflexivity. Qed.

Lemma status_is_bind {A} (c : ast.WalkStatus) (m : M A) (k : A -> M ast.WalkStatus) :
  (forall a, status_is c (k a)) -> status_is c (bind m k).
Proof.
  intros H w st w' E. unfold bind in E.
  destruct (m w) as [[a w1]| |]; try discriminate.
  exact (H a w1 st w' E).
Qed.

Ltac status :=
  repeat first
    [ apply status_is_ret
    | apply status_is_bind; intros ?
    | match goal with
      | |- status_is _ (if ?b then _ else _) => destruct b
      end ].

Section RenderProperties.
Variable u : Util.
Variable bytes_ToLower : list byte -> list byte.
Variable Node_Text : ast.Node -> list byte -> list byte.
Variable r : Config.

Lemma Render_unsupported (source : list byte) (n : ast.Node) (entering : bool)
    (w : BufWriter) :
  supported n = false ->
  Render u bytes_ToLower Node_Text r source n entering w
    = Ok ((ast.WalkContinue, Some NotSupported), w).
Proof.
  destruct n as [|k fc ns]; [reflexivity|].
  destruct k; simpl; intros H; try discriminate. reflexivity.
Qed.

Lemma no_error_inv (c : ast.WalkStatus) (m : M ast.WalkStatus) (w : BufWriter) res w' :
  status_is c m -> no_error m w = Ok (res, w') -> res = (c, None).
Proof.
  intros Hm H. unfold no_error, bind in H.
  destruct (m w) as [[st w1]| |] eqn:E; try discriminate.
  inversion H; subst. rewrite (Hm _ _ _ E). reflexivity.
Qed.

Lemma Render_supported (source : list byte) (n : ast.Node) (entering : bool)
    (w : BufWriter) res w' :
  supported n = true ->
  Render u bytes_ToLower Node_Text r source n entering w = Ok (res, w') ->
  res = (expected_status n entering, None).
Proof.
  destruct n as [|k fc ns]; [discriminate|].
  destruct k; simpl; intros Hs H; try discriminate;
    (eapply no_error_inv; [|exact H]); clear H;
    unfold expected_status; simpl; rewrite ?andb_false_r.
  all: try (unfold renderDocument, renderHeading, renderBlockquote,
            renderCodeBlock, renderFencedCodeBlock, renderHTMLBlock,
            renderList, renderListItem, renderParagraph, renderTextBlock,
            renderThemanticBreak, renderAutoLink, renderEmphasis, renderLink,
            renderRawHTML, renderText; status; fail).
  - unfold renderCodeSpan. destruct entering; simpl; status.
  - unfold renderImage. destruct entering; simpl; status.
Qed.
End RenderProperties.

(** ** Render returns *)

Lemma returns_Write (u : Util) (v : list byte) (w : BufWriter) Q :
  IsPunct u "&"%byte = true -> write_safe v = true ->
  (forall w', Q tt w') -> returns Q (Write u v w).
Proof.
  intros Hp Hs H. unfold write_safe in Hs. apply negb_true_iff in Hs.
  destruct (Write_returns u v Hs Hp w) as (w' & ->). apply H.
Qed.

Lemma returns_Value (source : list byte) (seg : ast.Segment) (w : BufWriter) Q :
  seg_ok source seg = true ->
  Q (sub source (ast.Start seg) (ast.Stop seg)) w ->
  returns Q (ast.Value seg source w).
Proof.
  unfold seg_ok. intros H HQ.
  apply andb_prop in H. destruct H as [H H3].
  apply andb_prop in H. destruct H as [H1 H2].
  apply Z.leb_le in H1, H2, H3.
  unfold ast.Value. apply returns_slice; [lia|lia|exact HQ].
Qed.

Lemma first_space_bounds (info : list byte) :
  forall i, i <= first_space info i <= i + len info.
Proof.
  unfold len. induction info as [|c info IH]; intros i; simpl.
  - lia.
  - destruct (Byte.eqb c " "%byte); [lia|]. specialize (IH (i + 1)). lia.
Qed.

Lemma HasSuffix_length (s t : list byte) :
  HasSuffix s t = true -> len t <= len s.
Proof.
  unfold HasSuffix, len. intros H. apply andb_prop in H. destruct H as [H _].
  apply Nat.leb_le in H. lia.
Qed.

(** A step of a run: sink writes compute, the other operations have their
    rule. *)
Ltac run_step :=
  match goal with
  | |- returns _ (bind _ _ _) => apply returns_bind
  | |- returns _ (RawWrite _ _) => apply returns_RawWrite
  | |- returns _ (no_error _ _) => unfold no_error
  | |- returns _ (ret _ _) => progress (cbn [returns ret])
  | |- returns _ (w_Write _ _) => progress (cbn [returns w_Write])
  | |- returns _ (w_WriteString _ _) => progress (cbn [returns w_Write w_WriteString])
  | |- returns _ (w_WriteByte _ _) => progress (cbn [returns w_Write w_WriteByte])
  end.
Ltac run := repeat run_step.

Section RenderReturns.
Variable u : Util.
Variable bytes_ToLower : list byte -> list byte.
Variable Node_Text : ast.Node -> list byte -> list byte.
Variable r : Config.
Variable source : list byte.
Hypothesis Hpunct : IsPunct u "&"%byte = true.
Hypothesis Hwriter : Config_Writer r = DefaultWriter u.

Lemma writeLines_returns (lines : list ast.Segment) (w : BufWriter) Q :
  forallb (seg_ok source) lines = true ->
  (forall w', Q tt w') -> returns Q (writeLines r source lines w).
Proof.
  intros Hl HQ. revert w. induction lines as [|line rest IH]; intros w; simpl.
  - apply HQ.
  - simpl in Hl. apply andb_prop in Hl. destruct Hl as [H1 H2].
    apply returns_bind. apply returns_Value; [assumption|].
    rewrite Hwriter; cbn [Writer_RawWrite Writer_Write DefaultWriter]. run. apply IH. assumption.
Qed.

Lemma copyLines_returns (lines : list ast.Segment) (w : BufWriter) Q :
  forallb (seg_ok source) lines = true ->
  (forall w', Q tt w') -> returns Q (copyLines source lines w).
Proof.
  intros Hl HQ. revert w. induction lines as [|line rest IH]; intros w; simpl.
  - apply HQ.
  - simpl in Hl. apply andb_prop in Hl. destruct Hl as [H1 H2].
    apply returns_bind. apply returns_Value; [assumption|].
    run. apply IH. assumption.
Qed.

Lemma renderCodeSpan_children_returns (c : ast.Node) (w : BufWriter) Q :
  all_text_ok source c = true ->
  (forall w', Q tt w') -> returns Q (renderCodeSpan_children r source c w).
Proof.
  intros Hc HQ. revert w.
  induction c as [|k fc _ next IH]; intros w; simpl.
  - apply HQ.
  - destruct k; simpl in Hc; try discriminate.
    apply andb_prop in Hc. destruct Hc as [H1 H2].
    apply returns_bind. apply returns_Value; [assumption|].
    rewrite Hwriter; cbn [Writer_RawWrite Writer_Write DefaultWriter]. apply returns_bind.
    destruct (HasSuffix _ [lf]) eqn:E.
    + apply HasSuffix_length in E. change (len [lf]) with 1 in E.
      apply returns_bind. apply returns_slice; [lia|lia|].
      run. destruct (negb (ast.is_nil next)); run; apply IH; assumption.
    + run. apply IH; assumption.
Qed.

Lemma write_title_returns (Title : option (list byte)) (w : BufWriter) Q :
  title_safe Title = true ->
  (forall w', Q tt w') -> returns Q (write_title r Title w).
Proof.
  intros Ht HQ. unfold write_title. destruct Title as [title|]; [|apply HQ].
  run. rewrite Hwriter; cbn [Writer_RawWrite Writer_Write DefaultWriter]. apply returns_Write; [assumption|assumption|].
  intros w'. run. apply HQ.
Qed.

(** On well-formed input the default renderer returns, without error, for
    every supported node. *)
Lemma Render_returns (n : ast.Node) (entering : bool) (w : BufWriter) :
  supported n = true -> well_formed source n entering = true ->
  returns (fun res _ => snd res = None)
          (Render u bytes_ToLower Node_Text r source n entering w).
Proof.
  destruct n as [|k fc ns]; [discriminate|].
  destruct k; simpl; intros Hs Hw; try discriminate.
  - (* Document *) reflexivity.
  - (* Heading *)
    apply andb_prop in Hw. destruct Hw as [H1 H2]. apply Z.leb_le in H1, H2.
    unfold renderHeading. destruct entering; run.
    + apply returns_index; [change (len (bs "0123456")) with 7; lia|].
      intros c _. run. destruct ID; run; reflexivity.
    + apply returns_index; [change (len (bs "0123456")) with 7; lia|].
      intros c _. run. reflexivity.
  - (* Blockquote *) unfold renderBlockquote. destruct entering; reflexivity.
  - (* CodeBlock *)
    unfold renderCodeBlock. destruct entering; simpl in Hw; run; [|reflexivity].
    apply writeLines_returns; [assumption|]. intros w'. run. reflexivity.
  - (* FencedCodeBlock *)
    unfold renderFencedCodeBlock. destruct entering; simpl in Hw; run; [|reflexivity].
    apply andb_prop in Hw. destruct Hw as [Hi Hl].
    destruct Info as [t|]; run.
    + apply andb_prop in Hi. destruct Hi as [Hseg Hsafe].
      apply returns_Value; [assumption|]. run.
      pose proof (first_space_bounds
                    (sub source (ast.Start (ast.Segment_ t)) (ast.Stop (ast.Segment_ t))) 0).
      apply returns_slice; [lia|lia|]. run.
      rewrite Hwriter; cbn [Writer_RawWrite Writer_Write DefaultWriter]. apply returns_Write; [assumption|assumption|].
      intros w'. run.
      apply writeLines_returns; [assumption|]. intros w''. run. reflexivity.
    + apply writeLines_returns; [assumption|]. intros w''. run. reflexivity.
  - (* HTMLBlock *)
    unfold renderHTMLBlock. destruct entering; run.
    + apply copyLines_returns; [assumption|]. intros w'. run. reflexivity.
    + destruct HasClosure; simpl in Hw; run; [|reflexivity].
      apply returns_Value; [assumption|]. run. reflexivity.
  - (* List *)
    unfold renderList. destruct entering; run; [|reflexivity].
    destruct (IsOrdered && negb (Start_ =? 1)); reflexivity.
  - (* ListItem *)
    unfold renderListItem. destruct entering; run; [|reflexivity].
    destruct fc as [|[] ? ?]; reflexivity.
  - (* Paragraph *) unfold renderParagraph. destruct entering; reflexivity.
  - (* TextBlock *)
    unfold renderTextBlock. destruct entering; simpl; [reflexivity|].
    destruct (negb (ast.is_nil ns) && negb (ast.is_nil fc)); reflexivity.
  - (* ThemanticBreak *)
    unfold renderThemanticBreak. destruct entering; simpl; [|reflexivity].
    destruct (Config_XHTML r); reflexivity.
  - (* AutoLink *)
    unfold renderAutoLink. destruct entering; simpl in *; [|reflexivity].
    run. apply returns_Value; [assumption|]. run.
    destruct (_ && _); run; reflexivity.
  - (* CodeSpan *)
    unfold renderCodeSpan. destruct entering; simpl in *; run; [|reflexivity].
    apply renderCodeSpan_children_returns; [assumption|]. intros w'. run. reflexivity.
  - (* Emphasis *)
    unfold renderEmphasis. destruct entering; reflexivity.
  - (* Image *)
    unfold renderImage. destruct entering; simpl in *; [|reflexivity].
    run. apply write_title_returns; [assumption|]. intros w'. run.
    destruct (Config_XHTML r); reflexivity.
  - (* Link *)
    unfold renderLink. destruct entering; simpl in *; run; [|reflexivity].
    apply write_title_returns; [assumption|]. intros w'. run. reflexivity.
  - (* RawHTML *) reflexivity.
  - (* Text *)
    unfold renderText. destruct entering; simpl in *; [|reflexivity].
    apply andb_prop in Hw. destruct Hw as [Hseg Hsafe]. run.
    destruct (ast.IsRaw t); simpl in Hsafe; run.
    + apply returns_Value; [assumption|]. run. reflexivity.
    + apply returns_Value; [assumption|]. run.
      rewrite Hwriter; cbn [Writer_RawWrite Writer_Write DefaultWriter]. apply returns_Write; [assumption|assumption|].
      intros w'.
      destruct (ast.HardLineBreak t || _); [destruct (Config_XHTML r)|destruct (ast.SoftLineBreak t)];
        reflexivity.
Qed.
End RenderReturns.

(** * The claims *)

Ltac run_util :=
  cbv -[app IsPunct IsHexDecimal IsNumeric IsAlphaNumeric
        LookUpHTML5EntityByName ToValidRune EscapeHTML URLEscape].
Ltac tidy := rewrite ?app_nil_r, <- ?app_assoc; simpl; try reflexivity.

Lemma eqb_neq (c x : byte) : c <> x -> Byte.eqb c x = false.
Proof.
  intros H. destruct (Byte.eqb c x) eqn:E; [|reflexivity].
  apply Byte.byte_dec_bl in E. contradiction.
Qed.

(** One step of a run: the first computation of a [bind] is run by [tac],
    and the run goes on with its result; a test on known values is
    decided. *)
Ltac bstep tac :=
  lazymatch goal with
  | |- bind ?m ?k ?w = _ =>
      let E := fresh "E" in
      eassert (E : m w = Ok _) by tac;
      rewrite (bind_ok m k w _ _ E); clear E; cbv beta iota zeta
  | |- (if ?b then _ else _) _ = _ =>
      let b' := eval cbv in b in
      lazymatch b' with
      | true => change b with true
      | false => change b with false
      end; cbv beta iota zeta
  end.
Ltac finish := lazymatch goal with |- Ok (_, _) = _ => reflexivity end.
Ltac mentions_util :=
  match goal with
  | x : Util |- ?G => lazymatch G with context [x] => idtac end
  end.
Ltac no_util := tryif mentions_util then fail else idtac.
Ltac known := no_util; run_util; rewrite ?app_nil_r; finish.
Ltac with_util tac := run_util; tac; run_util; rewrite ?app_nil_r; finish.


Section WriteRuns.
Variable u : Util.

Lemma Write_loop_step (fuel : nat) (s : list byte) (limit : Z) (escaped : bool)
    (n i : Z) (w : BufWriter) escaped' n' i' w' :
  i < limit ->
  Write_step u s limit escaped n i w = Ok ((escaped', n', i'), w') ->
  Write_loop u (S fuel) s limit escaped n i w
    = Write_loop u fuel s limit escaped' n' (i' + 1) w'.
Proof.
  intros Hi H. simpl. apply Z.ltb_lt in Hi. rewrite Hi.
  unfold bind. rewrite H. reflexivity.
Qed.

Lemma Write_loop_done (fuel : nat) (s : list byte) (limit : Z) (escaped : bool)
    (n i : Z) (w : BufWriter) :
  limit <= i -> Write_loop u fuel s limit escaped n i w = Ok (n, w).
Proof.
  intros Hi. apply Z.ltb_ge in Hi. destruct fuel; simpl; rewrite Hi; reflexivity.
Qed.

Lemma Write_step_reference (s : list byte) (limit n i : Z) (w : BufWriter) n' i' w' :
  index s i w = Ok ("&"%byte, w) ->
  Write_reference u s limit n i w = Ok ((Some n', i'), w') ->
  Write_step u s limit false n i w = Ok ((false, n', i'), w').
Proof.
  intros Hc Hr. unfold Write_step. rewrite (bind_ok _ _ _ _ _ Hc). simpl.
  rewrite (bind_ok _ _ _ _ _ Hr). reflexivity.
Qed.

End WriteRuns.

(** C1. [Render] returns an error exactly for a node outside the closed set
    of kinds: for an unsupported node it returns the error [NotSupported]
    (with [WalkContinue], nothing written); whenever it returns for a
    supported node, in either phase, the error is nil; and on well-formed
    input the default renderer does return for a supported node. *)
Theorem Render_error_iff_unsupported (u : Util)
    (bytes_ToLower : list byte -> list byte)
    (Node_Text : ast.Node -> list byte -> list byte) (r : Config)
    (source : list byte) (n : ast.Node) (entering : bool) (w : BufWriter) :
  (supported n = false ->
   Render u bytes_ToLower Node_Text r source n entering w
     = Ok ((ast.WalkContinue, Some NotSupported), w)) /\
  (forall res w',
     Render u bytes_ToLower Node_Text r source n entering w = Ok (res, w') ->
     (snd res = None <-> supported n = true) /\
     (snd res = Some NotSupported <-> supported n = false)) /\
  (supported n = true -> IsPunct u "&"%byte = true ->
   Config_Writer r = DefaultWriter u -> well_formed source n entering = true ->
   exists st w',
     Render u bytes_ToLower Node_Text r source n entering w = Ok ((st, None), w')).
Proof.
  split; [apply Render_unsupported|]. split.
  - intros res w' H. destruct (supported n) eqn:Hs.
    + rewrite (Render_supported _ _ _ _ _ _ _ _ _ _ Hs H). simpl.
      repeat split; intros; congruence.
    + rewrite (Render_unsupported u bytes_ToLower Node_Text r source n entering w Hs) in H.
      inversion H; subst. simpl. repeat split; intros; congruence.
  - intros Hs Hp Hw Hwf.
    pose proof (Render_returns u bytes_ToLower Node_Text r source Hp Hw n entering w Hs Hwf) as H.
    destruct (Render u bytes_ToLower Node_Text r source n entering w)
      as [[[st e] w']| |]; simpl in H; try contradiction.
    subst e. exists st, w'. reflexivity.
Qed.

(** C2. [RawWrite] returns on every input [s], having appended the bytes of
    [s] in order, each metacharacter replaced by its sequence of the escape
    table and every other byte unchanged; in what it appends, a
    metacharacter occurs only as the [&] that opens such a sequence; and it
    appends at least [len(s)] bytes. *)
Theorem RawWrite_escapes_metacharacters (s : list byte) (w : BufWriter) :
  exists out,
    RawWrite s w = Ok (tt, w ++ out) /\
    out = flat_map escape_byte s /\
    (escape_byte dquote = bs "&quot;" /\ escape_byte "&"%byte = bs "&amp;" /\
     escape_byte "<"%byte = bs "&lt;" /\ escape_byte ">"%byte = bs "&gt;" /\
     forall c, c <> dquote -> c <> "&"%byte -> c <> "<"%byte -> c <> ">"%byte ->
               escape_byte c = [c]) /\
    (forall k c, nth_error out k = Some c -> is_meta c = true ->
                 c = "&"%byte /\ escaped_at out k) /\
    (length s <= length out)%nat.
Proof.
  exists (escape_all s). split; [apply RawWrite_spec|].
  split; [reflexivity|]. split.
  - repeat split; try reflexivity.
    intros c H1 H2 H3 H4. unfold escape_byte.
    rewrite !eqb_neq by assumption. reflexivity.
  - split; [apply escape_all_meta|apply escape_all_length].
Qed.

(** C3. On an input that holds none of the bytes [&], backslash, double
    quote, [<] and [>], [Write] appends the input as it is. *)
Theorem Write_identity_on_plain_text (u : Util) (s : list byte) (w : BufWriter) :
  (forall c, In c s ->
     c <> "&"%byte /\ c <> "\"%byte /\ c <> dquote /\ c <> "<"%byte /\ c <> ">"%byte) ->
  Write u s w = Ok (tt, w ++ s).
Proof.
  intros H. unfold Write. unfold bind at 1.
  rewrite Write_loop_plain.
  - unfold bind. rewrite slice_ok by (pose proof (len_nonneg s); lia).
    rewrite sub_all, RawWrite_spec, escape_all_plain; [reflexivity|].
    intros c Hc. destruct (H c Hc) as (Ha & _ & Hq & Hl & Hg).
    unfold is_meta. rewrite !eqb_neq by assumption. reflexivity.
  - intros c Hc. destruct (H c Hc) as (Ha & Hb & _).
    split; apply eqb_neq; assumption.
  - pose proof (len_nonneg s). lia.
  - unfold len. lia.
Qed.

Lemma Write_identity_on_plain_text_witness :
  Write util_sample (bs "plain text, 100%") [] = Ok (tt, [] ++ bs "plain text, 100%").
Proof.
  apply (Write_identity_on_plain_text util_sample (bs "plain text, 100%") []).
  intros c H. simpl in H.
  repeat (destruct H as [<-|H]; [repeat split; discriminate|]).
  contradiction.
Defined.

(** C4. On the two bytes [&#] the run of [Write] does not complete: it reads
    [source[2]] of a two-byte input and panics. *)
Theorem Write_panics_on_amp_hash (u : Util) (w : BufWriter) :
  Write u (bs "&#") w = Panic.
Proof. reflexivity. Qed.

(** C5. On [&#010;] the code decodes the digits [010] in base 0, that is as
    the octal numeral of 8, and writes the byte 8, not the code point 10. *)
Theorem Write_decimal_reference_leading_zero (u : Util) (w : BufWriter) :
  IsNumeric u "0"%byte = true -> IsNumeric u "1"%byte = true ->
  IsNumeric u ";"%byte = false -> ToValidRune u 8 = 8 ->
  Write u (bs "&#010;") w = Ok (tt, w ++ [x08]).
Proof.
  intros H0 H1 Hs Hv.
  assert (Href : Write_reference u (bs "&#010;") 6 0 0 w = Ok ((Some 6, 5), w ++ [x08])).
  { unfold Write_reference. cbv zeta.
    repeat bstep known.
    bstep ltac:(with_util ltac:(rewrite H0, H1, Hs)).
    repeat bstep known.
    bstep ltac:(with_util ltac:(rewrite Hv)).
    known. }
  unfold Write. change (length (bs "&#010;")) with 6%nat.
  change (len (bs "&#010;")) with 6. cbv zeta.
  unfold bind at 1.
  erewrite Write_loop_step;
    [|lia|apply Write_step_reference; [reflexivity|exact Href]].
  rewrite Write_loop_done by lia.
  repeat bstep known. known.
Qed.

Lemma Write_decimal_reference_leading_zero_witness :
  Write util_sample (bs "&#010;") [] = Ok (tt, [] ++ [x08]).
Proof.
  apply (Write_decimal_reference_leading_zero util_sample []); reflexivity.
Defined.

(** C6, as stated, fails: on [&#zz;] the output is [&amp;#zz;], which is not
    the input. *)
Lemma Write_amp_hash_zz_not_verbatim :
  Write util_sample (bs "&#zz;") [] = Ok (tt, bs "&amp;#zz;") /\
  bs "&amp;#zz;" <> bs "&#zz;".
Proof. split; [reflexivity|discriminate]. Qed.

(** C6, amended. On the input [&#zz;] the output of [Write] is
    [&amp;#zz;]: the malformed reference is not decoded, and its bytes go
    through [RawWrite], which escapes the [&]. *)
Theorem Write_amp_hash_zz_escaped (u : Util) (w : BufWriter) :
  Write u (bs "&#zz;") w = Ok (tt, w ++ bs "&amp;#zz;").
Proof. run_util. tidy. Qed.

(** C7. On [&amp;] the output of [Write] is [&amp;]: the entity is looked
    up, its character [&] goes through [RawWrite], and [RawWrite] writes it
    as [&amp;]. *)
Theorem Write_amp_entity_round_trip (u : Util) (w : BufWriter) :
  IsAlphaNumeric u "a"%byte = true -> IsAlphaNumeric u "m"%byte = true ->
  IsAlphaNumeric u "p"%byte = true -> IsAlphaNumeric u ";"%byte = false ->
  LookUpHTML5EntityByName u (bs "amp") = Some (bs "&") ->
  Write_reference u (bs "&amp;") 5 0 0 w = Ok ((Some 5, 4), w ++ bs "&amp;") /\
  Write u (bs "&amp;") w = Ok (tt, w ++ bs "&amp;").
Proof.
  intros Ha Hm Hp Hs Hl.
  assert (Href : Write_reference u (bs "&amp;") 5 0 0 w = Ok ((Some 5, 4), w ++ bs "&amp;")).
  { unfold Write_reference. cbv zeta.
    repeat bstep known.
    bstep ltac:(with_util ltac:(rewrite Ha, Hm, Hp, Hs)).
    repeat bstep known.
    change ["a"%byte; "m"%byte; "p"%byte] with (bs "amp"). rewrite Hl.
    repeat bstep known. known. }
  split; [exact Href|].
  unfold Write. change (length (bs "&amp;")) with 5%nat.
  change (len (bs "&amp;")) with 5. cbv zeta.
  unfold bind at 1.
  erewrite Write_loop_step;
    [|lia|apply Write_step_reference; [reflexivity|exact Href]].
  rewrite Write_loop_done by lia.
  repeat bstep known. known.
Qed.

Lemma Write_amp_entity_round_trip_witness :
  Write util_sample (bs "&amp;") [] = Ok (tt, [] ++ bs "&amp;").
Proof.
  apply (Write_amp_entity_round_trip util_sample []); reflexivity.
Defined.

(** C8, as stated, fails: entering an autolink, [Render] writes the anchor
    and returns [WalkContinue], not [WalkSkipChildren]. *)
Lemma AutoLink_enter_returns_Continue :
  sample_Render (bs "http://a.b")
    (ast.Mk (ast.AutoLink ast.AutoLinkURL (text_at 0 10)) ast.Nil ast.Nil) true []
  = Ok ((ast.WalkContinue, None),
        bs "<a href=" ++ [dquote] ++ bs "http://a.b" ++ [dquote]
        ++ bs ">http://a.b</a>") /\
  ast.WalkContinue <> ast.WalkSkipChildren.
Proof. split; [reflexivity|discriminate]. Qed.

(** C8, amended. For every autolink whose segment lies within the source,
    the enter-phase call of [Render] writes the whole anchor: [<a href="],
    then [mailto:] when the link is an email link and its lower-cased
    destination does not start with [mailto:], the URL-escaped and
    HTML-escaped destination, [">], the HTML-escaped text and [</a>]; it
    returns [WalkContinue] and no error. *)
Theorem AutoLink_enter_writes_anchor (u : Util)
    (bytes_ToLower : list byte -> list byte)
    (Node_Text : ast.Node -> list byte -> list byte) (r : Config)
    (source : list byte) (typ : ast.AutoLinkType) (t : ast.Text)
    (fc ns : ast.Node) (w : BufWriter) :
  seg_ok source (ast.Segment_ t) = true ->
  let value := sub source (ast.Start (ast.Segment_ t)) (ast.Stop (ast.Segment_ t)) in
  Render u bytes_ToLower Node_Text r source
    (ast.Mk (ast.AutoLink typ t) fc ns) true w
  = Ok ((ast.WalkContinue, None),
        w ++ (bs "<a href=" ++ [dquote])
          ++ (if is_email typ && negb (HasPrefix (bytes_ToLower value) (bs "mailto:"))
              then bs "mailto:" else [])
          ++ EscapeHTML u (URLEscape u value false)
          ++ ([dquote] ++ bs ">")
          ++ EscapeHTML u value
          ++ bs "</a>").
Proof.
  intros Hseg value. unfold seg_ok in Hseg.
  apply andb_prop in Hseg. destruct Hseg as [Hseg H3].
  apply andb_prop in Hseg. destruct Hseg as [H1 H2].
  apply Z.leb_le in H1, H2, H3.
  cbn [Render]. unfold no_error, renderAutoLink. cbn [negb].
  unfold bind at 1. unfold bind at 1. cbn [w_Write].
  unfold bind at 1. unfold ast.Value. rewrite slice_ok by lia. fold value.
  unfold is_email.
  destruct (match typ with ast.AutoLinkEmail => true | ast.AutoLinkURL => false end
            && negb (HasPrefix (bytes_ToLower value) (bs "mailto:")));
    cbv [bind w_Write w_WriteString ret]; rewrite ?app_nil_r, <- ?app_assoc;
    reflexivity.
Qed.

Lemma AutoLink_enter_writes_anchor_witness :
  sample_Render (bs "a@b.c")
    (ast.Mk (ast.AutoLink ast.AutoLinkEmail (text_at 0 5)) ast.Nil ast.Nil) true []
  = Ok ((ast.WalkContinue, None),
        bs "<a href=" ++ [dquote] ++ bs "mailto:a@b.c" ++ [dquote]
        ++ bs ">a@b.c</a>").
Proof.
  exact (AutoLink_enter_writes_anchor util_sample ascii_ToLower (fun _ _ => [])
           (NewConfig util_sample) (bs "a@b.c") ast.AutoLinkEmail (text_at 0 5)
           ast.Nil ast.Nil [] eq_refl).
Defined.

(** C9, as stated, fails: a list item without children has no first child
    that is a text block, and yet no line feed follows its [<li>]. *)
Lemma ListItem_without_children_no_newline :
  sample_Render [] (ast.Mk ast.ListItem ast.Nil ast.Nil) true []
  = Ok ((ast.WalkContinue, None), bs "<li>") /\
  is_TextBlock (ast.FirstChild (ast.Mk ast.ListItem ast.Nil ast.Nil)) = false /\
  bs "<li>" <> bs "<li>" ++ [lf].
Proof. split; [reflexivity|split; [reflexivity|discriminate]]. Qed.

(** C9, amended. For every list item, the enter-phase call of [Render]
    writes [<li>], followed by a line feed exactly when the item has a first
    child and that child is no text block; it returns [WalkContinue] and no
    error. *)
Theorem ListItem_enter_writes_li (u : Util)
    (bytes_ToLower : list byte -> list byte)
    (Node_Text : ast.Node -> list byte -> list byte) (r : Config)
    (source : list byte) (fc ns : ast.Node) (w : BufWriter) :
  Render u bytes_ToLower Node_Text r source (ast.Mk ast.ListItem fc ns) true w
  = Ok ((ast.WalkContinue, None),
        w ++ bs "<li>"
          ++ (if negb (ast.is_nil fc) && negb (is_TextBlock fc) then [lf] else [])).
Proof.
  cbn [Render]. unfold no_error, renderListItem, bind, w_WriteString, w_Write, w_WriteByte, ret.
  destruct fc as [|k c s]; [|destruct k]; simpl;
    rewrite ?app_nil_r, <- ?app_assoc; reflexivity.
Qed.

(** C10. For every node of a supported kind and both phases: whenever
    [Render] returns, its directive is [WalkSkipChildren] on entering a code
    span or an image and [WalkContinue] in every other case, and so never
    [WalkStop]; and on well-formed input the default renderer does return,
    with that directive. *)
Theorem Render_directive (u : Util)
    (bytes_ToLower : list byte -> list byte)
    (Node_Text : ast.Node -> list byte -> list byte) (r : Config)
    (source : list byte) (n : ast.Node) (entering : bool) (w : BufWriter) :
  supported n = true ->
  (forall res w',
     Render u bytes_ToLower Node_Text r source n entering w = Ok (res, w') ->
     fst res = expected_status n entering /\ fst res <> ast.WalkStop) /\
  (expected_status n entering = ast.WalkSkipChildren <->
   entering = true /\ (is_CodeSpan n = true \/ is_Image n = true)) /\
  (expected_status n entering = ast.WalkContinue <->
   ~ (entering = true /\ (is_CodeSpan n = true \/ is_Image n = true))) /\
  (IsPunct u "&"%byte = true -> Config_Writer r = DefaultWriter u ->
   well_formed source n entering = true ->
   exists w',
     Render u bytes_ToLower Node_Text r source n entering w
       = Ok ((expected_status n entering, None), w')).
Proof.
  intros Hs. split; [|split; [|split]].
  - intros res w' H. rewrite (Render_supported _ _ _ _ _ _ _ _ _ _ Hs H). simpl.
    split; [reflexivity|]. unfold expected_status.
    destruct (entering && _); discriminate.
  - unfold expected_status.
    destruct entering, (is_CodeSpan n), (is_Image n); simpl; split;
      intros H; try discriminate; try reflexivity; auto;
      destruct H as [H1 [H2|H2]]; discriminate.
  - unfold expected_status.
    destruct entering, (is_CodeSpan n), (is_Image n); simpl; split;
      intros H; try discriminate; try reflexivity;
      try (exfalso; apply H; auto; fail);
      intros [H1 [H2|H2]]; discriminate.
  - intros Hp Hw Hwf.
    pose proof (Render_returns u bytes_ToLower Node_Text r source Hp Hw n entering w Hs Hwf) as H.
    destruct (Render u bytes_ToLower Node_Text r source n entering w)
      as [[res w']| |] eqn:E; simpl in H; try contradiction.
    rewrite (Render_supported _ _ _ _ _ _ _ _ _ _ Hs E).
    exists w'. reflexivity.
Qed.

Lemma Render_directive_witness :
  exists w',
    sample_Render (bs "x")
      (ast.Mk ast.CodeSpan (ast.Mk (ast.TextNode (text_at 0 1)) ast.Nil ast.Nil) ast.Nil)
      true []
    = Ok ((ast.WalkSkipChildren, None), w').
Proof.
  apply (proj2 (proj2 (proj2
           (Render_directive util_sample ascii_ToLower (fun _ _ => [])
              (NewConfig util_sample) (bs "x")
              (ast.Mk ast.CodeSpan (ast.Mk (ast.TextNode (text_at 0 1)) ast.Nil ast.Nil) ast.Nil)
              true [] eq_refl))));
    reflexivity.
Defined.

(** X1. [Write] returns on every input that does not end in the two bytes
    [&#], whatever else it holds (truncated or malformed references
    included), as long as [util.IsPunct] takes [&] for punctuation: every
    index and slice of the run is in range and the loop ends. *)
Theorem Write_returns_unless_amp_hash (u : Util) (s : list byte) (w : BufWriter) :
  IsPunct u "&"%byte = true -> HasSuffix s (bs "&#") = false ->
  exists w', Write u s w = Ok (tt, w').
Proof. intros Hp Hs. exact (Write_returns u s Hs Hp w). Qed.

Lemma Write_returns_unless_amp_hash_witness :
  exists w', Write util_sample (bs "a & b &#x; &#1 \& &") [] = Ok (tt, w').
Proof.
  apply (Write_returns_unless_amp_hash util_sample (bs "a & b &#x; &#1 \& &") []);
    reflexivity.
Defined.

(** * Further properties *)

(** ** The sink only grows by escaped text *)

Lemma escape_all_app (a b : list byte) :
  escape_all (a ++ b) = escape_all a ++ escape_all b.
Proof. unfold escape_all. apply flat_map_app. Qed.

Lemma keeps_sink_escaped {A} (m : M A) : keeps_sink m -> appends_escaped m.
Proof.
  intros H w a w' E. exists []. rewrite (H _ _ _ E). simpl. symmetry. apply app_nil_r.
Qed.

Lemma keeps_sink_ret {A} (a : A) : keeps_sink (ret a).
Proof. intros w x w' E. inversion E. reflexivity. Qed.

Lemma keeps_sink_bind {A B} (m : M A) (k : A -> M B) :
  keeps_sink m -> (forall a, keeps_sink (k a)) -> keeps_sink (bind m k).
Proof.
  intros Hm Hk w b w' E. unfold bind in E.
  destruct (m w) as [[a w1]| |] eqn:Em; try discriminate.
  rewrite (Hk a _ _ _ E). exact (Hm _ _ _ Em).
Qed.

Lemma keeps_sink_index (s : list byte) (i : Z) : keeps_sink (index s i).
Proof.
  intros w a w' E. unfold index in E.
  destruct ((0 <=? i) && (i <? len s)); [|discriminate].
  destruct (nth_error s (Z.to_nat i)); inversion E. reflexivity.
Qed.

Lemma keeps_sink_slice (s : list byte) (lo hi : Z) : keeps_sink (slice s lo hi).
Proof.
  intros w a w' E. unfold slice in E.
  destruct ((0 <=? lo) && (lo <=? hi) && (hi <=? len s)); inversion E. reflexivity.
Qed.

Lemma keeps_sink_andM (b : bool) (m : M bool) : keeps_sink m -> keeps_sink (andM b m).
Proof. intros H. destruct b; [exact H|apply keeps_sink_ret]. Qed.

Lemma keeps_sink_byte_at_is (s : list byte) (j : Z) (c : byte) :
  keeps_sink (byte_at_is s j c).
Proof.
  unfold byte_at_is. apply keeps_sink_bind; [apply keeps_sink_index|].
  intros a. apply keeps_sink_ret.
Qed.

Lemma keeps_sink_readWhile_loop (s : list byte) (hi : Z) (pred : byte -> bool)
    (fuel : nat) :
  forall j ok, keeps_sink (readWhile_loop fuel s hi pred j ok).
Proof.
  induction fuel as [|fuel IH]; intros j ok; simpl.
  - destruct (j <? hi); [intros w a w' E; discriminate|apply keeps_sink_ret].
  - destruct (j <? hi); [|apply keeps_sink_ret].
    apply keeps_sink_bind; [apply keeps_sink_index|].
    intros c. destruct (pred c); [apply IH|apply keeps_sink_ret].
Qed.

Lemma keeps_sink_readWhile (s : list byte) (lo hi : Z) (pred : byte -> bool) :
  keeps_sink (readWhile s lo hi pred).
Proof. apply keeps_sink_readWhile_loop. Qed.

Lemma appends_escaped_ret {A} (a : A) : appends_escaped (ret a).
Proof. apply keeps_sink_escaped, keeps_sink_ret. Qed.

Lemma appends_escaped_bind {A B} (m : M A) (k : A -> M B) :
  appends_escaped m -> (forall a, appends_escaped (k a)) ->
  appends_escaped (bind m k).
Proof.
  intros Hm Hk w b w' E. unfold bind in E.
  destruct (m w) as [[a w1]| |] eqn:Em; try discriminate.
  destruct (Hm _ _ _ Em) as (t1 & ->). destruct (Hk a _ _ _ E) as (t2 & ->).
  exists (t1 ++ t2). rewrite escape_all_app, app_assoc. reflexivity.
Qed.

Lemma appends_escaped_RawWrite (s : list byte) : appends_escaped (RawWrite s).
Proof.
  intros w a w' E. rewrite RawWrite_spec in E. inversion E. exists s. reflexivity.
Qed.

(** ** Bytes of a UTF-8 encoding *)

Lemma is_meta_cases (c : byte) :
  is_meta c = true ->
  c = dquote \/ c = "&"%byte \/ c = "<"%byte \/ c = ">"%byte.
Proof. destruct c; intros H; try discriminate; auto. Qed.

Lemma z2b_to_N (z : Z) : Z.of_N (Byte.to_N (z2b z)) = z mod 256.
Proof.
  unfold z2b. pose proof (Z.mod_pos_bound z 256 eq_refl) as Hm.
  destruct (Byte.of_N (Z.to_N (z mod 256))) as [c|] eqn:E.
  - apply Byte.to_of_N in E. rewrite E. lia.
  - apply Byte.of_N_None_iff in E. lia.
Qed.

Lemma z2b_high (z : Z) : Z.testbit z 7 = true -> is_meta (z2b z) = false.
Proof.
  intros Hb. destruct (is_meta (z2b z)) eqn:E; [|reflexivity].
  assert (Hm : Z.testbit (z mod 256) 7 = true).
  { change 256 with (2 ^ 8). rewrite Z.mod_pow2_bits_low by lia. exact Hb. }
  rewrite <- z2b_to_N in Hm.
  destruct (is_meta_cases _ E) as [H|[H|[H|H]]]; rewrite H in Hm; discriminate.
Qed.

Lemma lor_high (k x : Z) : Z.testbit k 7 = true -> Z.testbit (Z.lor k x) 7 = true.
Proof. intros H. rewrite Z.lor_spec, H. reflexivity. Qed.

Lemma utf8_high (r : Z) :
  128 <= r -> forall c, In c (utf8_EncodeRune r) -> is_meta c = false.
Proof.
  intros Hr c Hc. unfold utf8_EncodeRune in Hc.
  replace ((0 <=? r) && (r <=? 127)) with false in Hc
    by (symmetry; apply andb_false_iff; right; apply Z.leb_gt; lia).
  destruct ((0 <=? r) && (r <=? 2047));
    [|destruct ((r <? 0) || (1114111 <? r) || ((55296 <=? r) && (r <=? 57343)));
      [|destruct (r <=? 65535)]];
    cbn [In] in Hc;
    repeat (destruct Hc as [<-|Hc]; [try reflexivity; apply z2b_high, lor_high; reflexivity|]);
    contradiction.
Qed.

Lemma utf8_low (r : Z) : 0 <= r <= 127 -> utf8_EncodeRune r = [z2b r].
Proof.
  intros H. unfold utf8_EncodeRune.
  replace ((0 <=? r) && (r <=? 127)) with true; [reflexivity|].
  symmetry. apply andb_true_iff. split; apply Z.leb_le; lia.
Qed.

Lemma utf8_negative (r : Z) : r < 0 -> utf8_EncodeRune r = [xef; xbf; xbd].
Proof.
  intros H. unfold utf8_EncodeRune.
  replace (0 <=? r) with false by (symmetry; apply Z.leb_gt; lia). simpl.
  replace (r <? 0) with true by (symmetry; apply Z.ltb_lt; lia). reflexivity.
Qed.

Section Escaped.
Variable u : Util.

(** What is written for a rune that the escape table does not replace. *)
Lemma utf8_unreplaced (r : Z) :
  ((r <? 256) = true -> htmlEscaleTable_at (z2b r) = None) ->
  escape_all (utf8_EncodeRune r) = utf8_EncodeRune r.
Proof.
  intros Ht. destruct (Z.lt_ge_cases r 0) as [Hn|Hp].
  - rewrite utf8_negative by assumption. reflexivity.
  - destruct (Z.lt_ge_cases r 128) as [Hl|Hh].
    + rewrite utf8_low by lia. apply escape_all_plain.
      intros c [<-|[]]. apply table_none. apply Ht. apply Z.ltb_lt. lia.
    + apply escape_all_plain. apply utf8_high. assumption.
Qed.

Hypothesis Hvalid : forall r, ToValidRune u r = r \/ ToValidRune u r = 65533.

Lemma appends_escaped_escapeRune (r : Z) : appends_escaped (escapeRune u r).
Proof.
  intros w a w' E. unfold escapeRune in E.
  assert (Hrune : ((r <? 256) = true -> htmlEscaleTable_at (z2b r) = None) ->
                  w_WriteRune (ToValidRune u r) w = Ok (a, w') ->
                  exists t, w' = w ++ escape_all t).
  { intros Ht Hw. unfold w_WriteRune, w_Write in Hw. inversion Hw; subst.
    exists (utf8_EncodeRune (ToValidRune u r)).
    destruct (Hvalid r) as [->| ->]; [|reflexivity].
    rewrite utf8_unreplaced by assumption. reflexivity. }
  destruct (r <? 256) eqn:E256.
  - destruct (htmlEscaleTable_at (z2b r)) as [v|] eqn:T.
    + unfold w_Write in E. inversion E; subst.
      exists [z2b r]. simpl. rewrite app_nil_r.
      apply table_some in T. destruct T as [_ ->]. reflexivity.
    + apply Hrune; [intros _; reflexivity|exact E].
  - apply Hrune; [discriminate|exact E].
Qed.

Ltac escaped :=
  repeat first
    [ apply appends_escaped_ret
    | apply appends_escaped_RawWrite
    | apply appends_escaped_escapeRune
    | apply keeps_sink_escaped;
      first [ apply keeps_sink_index | apply keeps_sink_slice
            | apply keeps_sink_readWhile
            | apply keeps_sink_andM; apply keeps_sink_byte_at_is ]
    | match goal with
      | |- appends_escaped (bind _ _) => apply appends_escaped_bind; [|intros ?]
      | |- appends_escaped (if ?b then _ else _) => destruct b
      | |- appends_escaped (match ?x with Some _ => _ | None => _ end) => destruct x
      | |- appends_escaped (let (_, _) := ?x in _) => destruct x
      end ].

Lemma appends_escaped_Write_reference (s : list byte) (limit n i : Z) :
  appends_escaped (Write_reference u s limit n i).
Proof. unfold Write_reference. cbv zeta. escaped. Qed.

Lemma appends_escaped_Write_step (s : list byte) (limit : Z) (escaped : bool) (n i : Z) :
  appends_escaped (Write_step u s limit escaped n i).
Proof.
  unfold Write_step. escaped. apply appends_escaped_Write_reference.
Qed.

Lemma appends_escaped_Write_loop (s : list byte) (limit : Z) (fuel : nat) :
  forall escaped n i, appends_escaped (Write_loop u fuel s limit escaped n i).
Proof.
  induction fuel as [|fuel IH]; intros escaped n i; simpl.
  - destruct (i <? limit); [intros w a w' E; discriminate|apply appends_escaped_ret].
  - destruct (i <? limit); [|apply appends_escaped_ret].
    apply appends_escaped_bind; [apply appends_escaped_Write_step|].
    intros [[e n'] i']. apply IH.
Qed.

Lemma appends_escaped_Write (s : list byte) : appends_escaped (Write u s).
Proof.
  unfold Write. cbv zeta.
  apply appends_escaped_bind; [apply appends_escaped_Write_loop|].
  intros n. escaped.
Qed.
End Escaped.

(** ** Escaping loses nothing *)

Lemma escape_byte_plain (c : byte) :
  is_meta c = false -> escape_byte c = [c] /\ c <> "&"%byte.
Proof. destruct c; intros H; try discriminate; split; try reflexivity; discriminate. Qed.

Lemma escape_byte_meta (c : byte) :
  is_meta c = true -> exists rest, escape_byte c = "&"%byte :: rest.
Proof.
  intros H. destruct (is_meta_cases c H) as [-> | [-> | [-> | ->]]]; eexists; reflexivity.
Qed.

Lemma escape_all_injective (s1 : list byte) :
  forall s2, escape_all s1 = escape_all s2 -> s1 = s2.
Proof.
  induction s1 as [|a s1 IH]; intros [|c s2] H.
  - reflexivity.
  - exfalso. simpl in H. pose proof (escape_byte_length c) as Hl.
    apply (f_equal (@length byte)) in H. rewrite length_app in H. simpl in H. lia.
  - exfalso. simpl in H. pose proof (escape_byte_length a) as Hl.
    apply (f_equal (@length byte)) in H. rewrite length_app in H. simpl in H. lia.
  - change (escape_byte a ++ escape_all s1 = escape_byte c ++ escape_all s2) in H.
    destruct (is_meta a) eqn:Ea, (is_meta c) eqn:Ec.
    + destruct (is_meta_cases a Ea) as [-> | [-> | [-> | ->]]];
        destruct (is_meta_cases c Ec) as [-> | [-> | [-> | ->]]];
        try discriminate H;
        (f_equal; apply IH; cbn [escape_byte Byte.eqb] in H;
         revert H; cbv [escape_byte]; simpl; intros H; inversion H; reflexivity).
    + destruct (escape_byte_meta a Ea) as (rest & Hr).
      destruct (escape_byte_plain c Ec) as [Hc Hne].
      rewrite Hr, Hc in H. inversion H. congruence.
    + destruct (escape_byte_meta c Ec) as (rest & Hr).
      destruct (escape_byte_plain a Ea) as [Ha Hne].
      rewrite Hr, Ha in H. inversion H. congruence.
    + destruct (escape_byte_plain a Ea) as [Ha _].
      destruct (escape_byte_plain c Ec) as [Hc _].
      rewrite Ha, Hc in H. inversion H. f_equal. apply IH. assumption.
Qed.

(** ** readWhile *)

Lemma index_at (s : list byte) (j : Z) (c : byte) (w : BufWriter) :
  0 <= j -> nth_error s (Z.to_nat j) = Some c -> index s j w = Ok (c, w).
Proof.
  intros Hj Hc. unfold index.
  assert (Hlt : (Z.to_nat j < length s)%nat)
    by (apply nth_error_Some; congruence).
  replace (0 <=? j) with true by (symmetry; apply Z.leb_le; lia).
  replace (j <? len s) with true by (symmetry; apply Z.ltb_lt; unfold len; lia).
  simpl. rewrite Hc. reflexivity.
Qed.

(** [readWhile] with the bounds of a run that is known: [pred] holds from
    [lo] up to [e], and the run ends at [e]. *)
Lemma readWhile_loop_run (s : list byte) (hi : Z) (pred : byte -> bool)
    (w : BufWriter) (e : Z) (k : nat) :
  forall (fuel : nat) (j : Z) (ok : bool),
    0 <= j -> e = j + Z.of_nat k -> e <= hi -> (Z.to_nat (hi - j) <= fuel)%nat ->
    (forall i, j <= i < e ->
       exists c, nth_error s (Z.to_nat i) = Some c /\ pred c = true) ->
    (e < hi ->
       exists c, nth_error s (Z.to_nat e) = Some c /\ pred c = false) ->
    readWhile_loop fuel s hi pred j ok w
      = Ok ((e, ok || negb (Nat.eqb k 0)), w).
Proof.
  induction k as [|k IH]; intros fuel j ok Hj He Hhi Hf Hrun Hend.
  - rewrite Nat2Z.inj_0, Z.add_0_r in He. subst e. rewrite orb_false_r.
    destruct fuel; simpl.
    + replace (j <? hi) with false by (symmetry; apply Z.ltb_ge; lia). reflexivity.
    + destruct (j <? hi) eqn:E; [|reflexivity].
      apply Z.ltb_lt in E. destruct (Hend E) as (c & Hc & Hp).
      rewrite (bind_ok _ _ _ _ _ (index_at s j c w Hj Hc)), Hp. reflexivity.
  - destruct fuel as [|fuel]; [lia|]. simpl.
    replace (j <? hi) with true by (symmetry; apply Z.ltb_lt; lia).
    destruct (Hrun j) as (c & Hc & Hp); [lia|].
    rewrite (bind_ok _ _ _ _ _ (index_at s j c w Hj Hc)), Hp.
    rewrite (IH fuel (j + 1) true); try lia.
    + rewrite orb_true_r. reflexivity.
    + intros i Hi. apply Hrun. lia.
    + exact Hend.
Qed.

Lemma readWhile_run (s : list byte) (lo hi e : Z) (pred : byte -> bool)
    (w : BufWriter) :
  0 <= lo <= e -> e <= hi -> hi <= len s ->
  (forall i, lo <= i < e ->
     exists c, nth_error s (Z.to_nat i) = Some c /\ pred c = true) ->
  (e < hi -> exists c, nth_error s (Z.to_nat e) = Some c /\ pred c = false) ->
  readWhile s lo hi pred w = Ok ((e, lo <? e), w).
Proof.
  intros Hlo He Hhi Hrun Hend. unfold readWhile.
  rewrite (readWhile_loop_run s hi pred w e (Z.to_nat (e - lo))); try lia.
  - simpl. do 3 f_equal.
    destruct (Z.to_nat (e - lo)) eqn:Ek; simpl; symmetry;
      [apply Z.ltb_ge|apply Z.ltb_lt]; lia.
  - unfold len in *. lia.
  - exact Hrun.
  - exact Hend.
Qed.

(** What [readWhile] returns, whatever the input: the end of the longest
    run of bytes that satisfy [pred], from [lo] on and below [hi]. *)
Lemma readWhile_loop_spec (s : list byte) (hi : Z) (pred : byte -> bool)
    (w : BufWriter) (fuel : nat) :
  forall (j : Z) (ok : bool),
    0 <= j -> hi <= len s -> (Z.to_nat (hi - j) <= fuel)%nat ->
    exists e,
      readWhile_loop fuel s hi pred j ok w = Ok ((e, ok || (j <? e)), w) /\
      j <= e /\ (j <= hi -> e <= hi) /\
      (forall i, j <= i < e ->
         exists c, nth_error s (Z.to_nat i) = Some c /\ pred c = true) /\
      (e < hi -> exists c, nth_error s (Z.to_nat e) = Some c /\ pred c = false).
Proof.
  induction fuel as [|fuel IH]; intros j ok Hj Hhi Hf; simpl.
  - replace (j <? hi) with false by (symmetry; apply Z.ltb_ge; lia).
    exists j. rewrite Z.ltb_irrefl, orb_false_r.
    split; [reflexivity|]. repeat split; try lia.
  - destruct (j <? hi) eqn:E.
    + apply Z.ltb_lt in E.
      destruct (index_ok s j w) as (c & Hc & Hidx); [lia|].
      rewrite (bind_ok _ _ _ _ _ Hidx).
      destruct (pred c) eqn:Hp.
      * destruct (IH (j + 1) true) as (e & R & H1 & H2 & H3 & H4); try lia.
        exists e. rewrite R. simpl.
        replace (j <? e) with true by (symmetry; apply Z.ltb_lt; lia).
        rewrite orb_true_r. split; [reflexivity|].
        repeat split; try lia; [|exact H4].
        intros i Hi. destruct (Z.eq_dec i j) as [->|Hne].
        -- exists c. auto.
        -- apply H3. lia.
      * exists j. rewrite Z.ltb_irrefl, orb_false_r.
        split; [reflexivity|]. repeat split; try lia.
        intros _. exists c. auto.
    + apply Z.ltb_ge in E.
      exists j. rewrite Z.ltb_irrefl, orb_false_r.
      split; [reflexivity|]. repeat split; try lia.
Qed.

(** ** Positions in a concatenation *)

Lemma len_app (a b : list byte) : len (a ++ b) = len a + len b.
Proof. unfold len. rewrite length_app. lia. Qed.

Lemma len_cons (c : byte) (a : list byte) : len (c :: a) = 1 + len a.
Proof. unfold len. simpl length. lia. Qed.

Lemma nth_app_at (a b : list byte) (k : Z) :
  0 <= k -> nth_error (a ++ b) (Z.to_nat (len a + k)) = nth_error b (Z.to_nat k).
Proof.
  intros Hk. unfold len. rewrite nth_error_app2 by lia. f_equal. lia.
Qed.

Lemma nth_app_before (a b : list byte) (k : Z) :
  0 <= k < len a -> nth_error (a ++ b) (Z.to_nat k) = nth_error a (Z.to_nat k).
Proof. intros Hk. unfold len in Hk. apply nth_error_app1. lia. Qed.

Lemma sub_app_left (a b : list byte) : sub (a ++ b) 0 (len a) = a.
Proof.
  unfold sub, len. rewrite Z.sub_0_r, Nat2Z.id. simpl.
  rewrite firstn_app, Nat.sub_diag, firstn_all. simpl. apply app_nil_r.
Qed.

Lemma sub_shift (a b : list byte) (lo hi : Z) :
  0 <= lo -> sub (a ++ b) (len a + lo) (len a + hi) = sub b lo hi.
Proof.
  intros Hlo. unfold sub, len.
  replace (Z.of_nat (length a) + hi - (Z.of_nat (length a) + lo)) with (hi - lo) by lia.
  f_equal. rewrite skipn_app.
  rewrite skipn_all2 by lia. simpl. f_equal. lia.
Qed.

Lemma sub_app_right (a b : list byte) : sub (a ++ b) (len a) (len (a ++ b)) = b.
Proof.
  rewrite len_app.
  replace (len a) with (len a + 0) at 1 by lia.
  rewrite sub_shift by lia. apply sub_all.
Qed.

Lemma Forall_nth {P : byte -> Prop} (a : list byte) (k : Z) :
  Forall P a -> 0 <= k < len a ->
  exists c, nth_error a (Z.to_nat k) = Some c /\ P c.
Proof.
  intros Ha Hk. unfold len in Hk.
  destruct (nth_error a (Z.to_nat k)) as [c|] eqn:E.
  - exists c. split; [reflexivity|].
    rewrite Forall_forall in Ha. apply Ha. eapply nth_error_In. exact E.
  - apply nth_error_None in E. lia.
Qed.

Section WriteDecoding.
Variable u : Util.

(** The loop of [Write] passes over plain bytes, [k] of them. *)
Lemma Write_loop_skip (s : list byte) (k : nat) :
  forall (fuel : nat) (n i : Z) (w : BufWriter),
    0 <= i ->
    (forall j, i <= j < i + Z.of_nat k ->
       exists c, nth_error s (Z.to_nat j) = Some c /\ plain_byte c) ->
    Write_loop u (k + fuel) s (len s) false n i w
      = Write_loop u fuel s (len s) false n (i + Z.of_nat k) w.
Proof.
  induction k as [|k IH]; intros fuel n i w Hi Hplain.
  - simpl. rewrite Z.add_0_r. reflexivity.
  - destruct (Hplain i) as (c & Hc & Ha & Hb); [lia|].
    assert (Hlt : i < len s).
    { assert (Z.to_nat i < length s)%nat by (apply nth_error_Some; congruence).
      unfold len. lia. }
    change (S k + fuel)%nat with (S (k + fuel)).
    rewrite (Write_loop_step u (k + fuel) s (len s) false n i w false n i w Hlt).
    + rewrite IH; [f_equal; lia|lia|].
      intros j Hj. apply Hplain. lia.
    + apply Write_step_plain with (c := c); try lia; try assumption;
        apply eqb_neq; assumption.
Qed.

Lemma Write_step_reference_failed (s : list byte) (limit n i : Z)
    (w : BufWriter) i' w' :
  index s i w = Ok ("&"%byte, w) ->
  Write_reference u s limit n i w = Ok ((None, i'), w') ->
  Write_step u s limit false n i w = Ok ((false, n, i'), w').
Proof.
  intros Hc Hr. unfold Write_step. rewrite (bind_ok _ _ _ _ _ Hc). simpl.
  rewrite (bind_ok _ _ _ _ _ Hr). reflexivity.
Qed.

(** [Write] on an input with one reference, at [p], that is decoded up to
    its [;] at [e], between plain bytes. *)
Lemma Write_decoded (s : list byte) (p e : Z) (w w1 : BufWriter) :
  0 <= p <= e -> e < len s ->
  (forall j, 0 <= j < p ->
     exists c, nth_error s (Z.to_nat j) = Some c /\ plain_byte c) ->
  nth_error s (Z.to_nat p) = Some "&"%byte ->
  Write_reference u s (len s) 0 p w = Ok ((Some (e + 1), e), w1) ->
  (forall j, e + 1 <= j < len s ->
     exists c, nth_error s (Z.to_nat j) = Some c /\ plain_byte c) ->
  Write u s w = Ok (tt, w1 ++ escape_all (sub s (e + 1) (len s))).
Proof.
  intros Hp He Hpre Hamp Href Hpost. unfold Write. cbv zeta.
  replace (length s)
    with (Z.to_nat p + S (Z.to_nat (len s - (e + 1)) + Z.to_nat (e - p)))%nat
    by (unfold len in *; lia).
  unfold bind at 1.
  rewrite Write_loop_skip by (try lia; intros j Hj; apply Hpre; lia).
  rewrite Z2Nat.id, Z.add_0_l by lia.
  rewrite (Write_loop_step u _ s (len s) false 0 p w false (e + 1) e w1);
    [|lia|apply Write_step_reference; [apply index_at; [lia|exact Hamp]|exact Href]].
  rewrite Write_loop_skip by (try lia; intros j Hj; apply Hpost; lia).
  rewrite Write_loop_done by lia.
  unfold bind. rewrite slice_ok by lia. apply RawWrite_spec.
Qed.

(** [Write] on an input whose one [&], at [p], opens no reference that is
    decoded, and whose other bytes are plain. *)
Lemma Write_undecoded (s : list byte) (p : Z) (w w1 : BufWriter) :
  0 <= p < len s ->
  (forall j, 0 <= j < len s -> j <> p ->
     exists c, nth_error s (Z.to_nat j) = Some c /\ plain_byte c) ->
  nth_error s (Z.to_nat p) = Some "&"%byte ->
  Write_reference u s (len s) 0 p w = Ok ((None, p), w1) ->
  Write u s w = Ok (tt, w1 ++ escape_all s).
Proof.
  intros Hp Hplain Hamp Href. unfold Write. cbv zeta.
  replace (length s)
    with (Z.to_nat p + S (Z.to_nat (len s - (p + 1)) + 0))%nat
    by (unfold len in *; lia).
  unfold bind at 1.
  rewrite Write_loop_skip by (try lia; intros j Hj; apply Hplain; lia).
  rewrite Z2Nat.id, Z.add_0_l by lia.
  rewrite (Write_loop_step u _ s (len s) false 0 p w false 0 p w1);
    [|lia|apply Write_step_reference_failed;
          [apply index_at; [lia|exact Hamp]|exact Href]].
  rewrite Write_loop_skip by (try lia; intros j Hj; apply Hplain; lia).
  rewrite Write_loop_done by lia.
  unfold bind. rewrite slice_ok by (pose proof (len_nonneg s); lia).
  rewrite sub_all. apply RawWrite_spec.
Qed.
End WriteDecoding.

(** ** References *)

Lemma andM_byte (s : list byte) (b : bool) (j : Z) (c c' : byte) (w : BufWriter) :
  b = true -> 0 <= j -> nth_error s (Z.to_nat j) = Some c' ->
  andM b (byte_at_is s j c) w = Ok (Byte.eqb c' c, w).
Proof.
  intros -> Hj Hc. unfold andM, byte_at_is.
  rewrite (bind_ok _ _ _ _ _ (index_at s j c' w Hj Hc)). reflexivity.
Qed.

Lemma andM_false (b : bool) (m : M bool) (w : BufWriter) :
  b = false -> andM b m w = Ok (false, w).
Proof. intros ->. reflexivity. Qed.

Section References.
Variable u : Util.
Variable s : list byte.
Variables (n p e : Z) (w : BufWriter).
Hypothesis Hn : 0 <= n <= p.
Hypothesis He : e < len s.
Hypothesis Hsemi : nth_error s (Z.to_nat e) = Some ";"%byte.

(** The reference block on [&#x...;] (or [&#X...;]). *)
Lemma Write_reference_hex (x : byte) :
  nth_error s (Z.to_nat (p + 1)) = Some "#"%byte ->
  nth_error s (Z.to_nat (p + 1 + 1)) = Some x ->
  x = "x"%byte \/ x = "X"%byte ->
  p + 1 + 1 + 1 < e ->
  (forall i, p + 1 + 1 + 1 <= i < e ->
     exists c, nth_error s (Z.to_nat i) = Some c /\ IsHexDecimal u c = true) ->
  IsHexDecimal u ";"%byte = false ->
  Write_reference u s (len s) n p w
    = (RawWrite (sub s n p) ;;;
       escapeRune u (rune (ParseUint (sub s (p + 1 + 1 + 1) e) 16 32)) ;;;
       ret (Some (e + 1), e)) w.
Proof.
  intros Hhash Hx Hxx Hne Hrun Hstop. unfold Write_reference. cbv zeta.
  rewrite (bind_ok _ _ _ _ _
             (andM_byte s _ (p + 1) "#"%byte "#"%byte w
                (proj2 (Z.ltb_lt (p + 1) (len s)) ltac:(lia)) ltac:(lia) Hhash)).
  cbv beta iota. change (Byte.eqb "#" "#") with true. cbv iota.
  rewrite (bind_ok _ _ _ _ _ (index_at s (p + 1 + 1) x w ltac:(lia) Hx)).
  replace (((p + 1 + 1 <? len s) && Byte.eqb x "x"%byte) || Byte.eqb x "X"%byte)
    with true
    by (replace (p + 1 + 1 <? len s) with true by (symmetry; apply Z.ltb_lt; lia);
        destruct Hxx as [-> | ->]; reflexivity).
  rewrite (bind_ok _ _ _ _ _
             (readWhile_run s (p + 1 + 1 + 1) (len s) e (IsHexDecimal u) w
                ltac:(lia) ltac:(lia) ltac:(lia) Hrun
                (fun _ => ex_intro _ ";"%byte (conj Hsemi Hstop)))).
  replace (p + 1 + 1 + 1 <? e) with true by (symmetry; apply Z.ltb_lt; lia).
  rewrite (bind_ok _ _ _ _ _
             (andM_byte s _ e ";"%byte ";"%byte w
                (proj2 (andb_true_iff _ _) (conj eq_refl (proj2 (Z.ltb_lt _ _) He)))
                ltac:(lia) Hsemi)).
  change (Byte.eqb ";" ";") with true. cbv iota.
  unfold bind at 1. rewrite slice_ok by lia.
  unfold bind at 1. rewrite slice_ok by lia.
  reflexivity.
Qed.

(** The reference block on [&#] and decimal digits. *)
Lemma Write_reference_decimal (d0 : byte) :
  nth_error s (Z.to_nat (p + 1)) = Some "#"%byte ->
  nth_error s (Z.to_nat (p + 1 + 1)) = Some d0 ->
  in_range "0" "9" d0 = true ->
  p + 1 + 1 < e ->
  (forall i, p + 1 + 1 <= i < e ->
     exists c, nth_error s (Z.to_nat i) = Some c /\ IsNumeric u c = true) ->
  IsNumeric u ";"%byte = false ->
  Write_reference u s (len s) n p w
    = if e - (p + 1 + 1) <? 8 then
        (RawWrite (sub s n p) ;;;
         escapeRune u (rune (ParseUint (sub s (p + 1 + 1) e) 0 32)) ;;;
         ret (Some (e + 1), e)) w
      else Ok ((None, p), w).
Proof.
  intros Hhash Hd Hd0 Hne Hrun Hstop. unfold Write_reference. cbv zeta.
  rewrite (bind_ok _ _ _ _ _
             (andM_byte s _ (p + 1) "#"%byte "#"%byte w
                (proj2 (Z.ltb_lt (p + 1) (len s)) ltac:(lia)) ltac:(lia) Hhash)).
  cbv beta iota. change (Byte.eqb "#" "#") with true. cbv iota.
  rewrite (bind_ok _ _ _ _ _ (index_at s (p + 1 + 1) d0 w ltac:(lia) Hd)).
  replace (((p + 1 + 1 <? len s) && Byte.eqb d0 "x"%byte) || Byte.eqb d0 "X"%byte)
    with false
    by (destruct ((p + 1 + 1 <? len s)); clear - Hd0; destruct d0;
        try discriminate; reflexivity).
  fold (in_range "0" "9" d0). rewrite Hd0.
  rewrite (bind_ok _ _ _ _ _
             (readWhile_run s (p + 1 + 1) (len s) e (IsNumeric u) w
                ltac:(lia) ltac:(lia) ltac:(lia) Hrun
                (fun _ => ex_intro _ ";"%byte (conj Hsemi Hstop)))).
  replace (p + 1 + 1 <? e) with true by (symmetry; apply Z.ltb_lt; lia).
  replace (e <? len s) with true by (symmetry; apply Z.ltb_lt; lia).
  cbn [andb].
  destruct (e - (p + 1 + 1) <? 8) eqn:E8.
  - rewrite (bind_ok _ _ _ _ _
               (andM_byte s _ e ";"%byte ";"%byte w eq_refl ltac:(lia) Hsemi)).
    change (Byte.eqb ";" ";") with true. cbv iota.
    unfold bind at 1. rewrite slice_ok by lia.
    unfold bind at 1. rewrite slice_ok by lia.
    reflexivity.
  - rewrite (bind_ok _ _ _ _ _ (andM_false _ _ w eq_refl)).
    cbv iota. unfold ret. do 3 f_equal. lia.
Qed.

(** The reference block on [&name;]. *)
Lemma Write_reference_named (c1 : byte) :
  nth_error s (Z.to_nat (p + 1)) = Some c1 -> c1 <> "#"%byte ->
  p + 1 < e ->
  (forall i, p + 1 <= i < e ->
     exists c, nth_error s (Z.to_nat i) = Some c /\ IsAlphaNumeric u c = true) ->
  IsAlphaNumeric u ";"%byte = false ->
  Write_reference u s (len s) n p w
    = match LookUpHTML5EntityByName u (sub s (p + 1) e) with
      | Some characters =>
          (RawWrite (sub s n p) ;;; RawWrite characters ;;;
           ret (Some (e + 1), e)) w
      | None => Ok ((None, p), w)
      end.
Proof.
  intros Hc1 Hnot Hne Hrun Hstop. unfold Write_reference. cbv zeta.
  rewrite (bind_ok _ _ _ _ _
             (andM_byte s _ (p + 1) "#"%byte c1 w
                (proj2 (Z.ltb_lt (p + 1) (len s)) ltac:(lia)) ltac:(lia) Hc1)).
  cbv beta iota. rewrite (eqb_neq _ _ Hnot).
  rewrite (bind_ok _ _ _ _ _
             (readWhile_run s (p + 1) (len s) e (IsAlphaNumeric u) w
                ltac:(lia) ltac:(lia) ltac:(lia) Hrun
                (fun _ => ex_intro _ ";"%byte (conj Hsemi Hstop)))).
  replace (p + 1 <? e) with true by (symmetry; apply Z.ltb_lt; lia).
  rewrite (bind_ok _ _ _ _ _
             (andM_byte s _ e ";"%byte ";"%byte w
                (proj2 (andb_true_iff _ _) (conj eq_refl (proj2 (Z.ltb_lt _ _) He)))
                ltac:(lia) Hsemi)).
  change (Byte.eqb ";" ";") with true. cbv iota.
  unfold bind at 1. rewrite slice_ok by lia.
  destruct (LookUpHTML5EntityByName u (sub s (p + 1) e)).
  - unfold bind at 1. rewrite slice_ok by lia. reflexivity.
  - unfold ret. do 3 f_equal. lia.
Qed.
End References.

(** The positions of [pre ++ opn ++ body ++ ";" :: post]. *)
Section Shape.
Variables pre opn body post : list byte.
Let s := pre ++ opn ++ body ++ ";"%byte :: post.
Let p := len pre.
Let b := len pre + len opn.
Let e := len pre + len opn + len body.

Lemma shape_len : len s = e + 1 + len post.
Proof.
  unfold s, e. rewrite !len_app, len_cons. lia.
Qed.

Lemma shape_pre (j : Z) :
  0 <= j < p -> nth_error s (Z.to_nat j) = nth_error pre (Z.to_nat j).
Proof. intros Hj. unfold s. apply nth_app_before. exact Hj. Qed.

Lemma shape_opn (k : Z) :
  0 <= k < len opn ->
  nth_error s (Z.to_nat (p + k)) = nth_error opn (Z.to_nat k).
Proof.
  intros Hk. unfold s, p. rewrite nth_app_at by lia.
  apply nth_app_before. exact Hk.
Qed.

Lemma shape_body (i : Z) :
  b <= i < e ->
  nth_error s (Z.to_nat i) = nth_error body (Z.to_nat (i - b)).
Proof.
  intros Hi. unfold s, b, e in *. pose proof (len_nonneg opn).
  replace i with (len pre + (len opn + (i - (len pre + len opn)))) at 1 by lia.
  rewrite nth_app_at by lia. rewrite nth_app_at by lia.
  apply nth_app_before. lia.
Qed.

Lemma shape_semi : nth_error s (Z.to_nat e) = Some ";"%byte.
Proof.
  unfold s, e.
  replace (len pre + len opn + len body)
    with (len pre + (len opn + (len body + 0))) by lia.
  rewrite !nth_app_at by (pose proof (len_nonneg opn); pose proof (len_nonneg body); lia).
  reflexivity.
Qed.

Lemma shape_post (j : Z) :
  e + 1 <= j ->
  nth_error s (Z.to_nat j) = nth_error post (Z.to_nat (j - (e + 1))).
Proof.
  intros Hj. unfold s, e in *.
  pose proof (len_nonneg opn). pose proof (len_nonneg body). pose proof (len_nonneg pre).
  replace j with (len pre + (len opn + (len body
                    + (1 + (j - (len pre + len opn + len body + 1)))))) at 1 by lia.
  rewrite !nth_app_at by lia.
  replace (Z.to_nat (1 + (j - (len pre + len opn + len body + 1))))
    with (S (Z.to_nat (j - (len pre + len opn + len body + 1)))) by lia.
  reflexivity.
Qed.

Lemma shape_sub_pre : sub s 0 p = pre.
Proof. apply sub_app_left. Qed.

Lemma shape_sub_body : sub s b e = body.
Proof.
  unfold s, b, e. pose proof (len_nonneg opn).
  replace (len pre + len opn) with (len pre + (len opn + 0)) at 1 by lia.
  rewrite <- Z.add_assoc. rewrite sub_shift by lia.
  rewrite sub_shift by lia. apply sub_app_left.
Qed.

Lemma shape_sub_post : sub s (e + 1) (len s) = post.
Proof.
  unfold s at 1.
  replace (pre ++ opn ++ body ++ ";"%byte :: post)
    with ((pre ++ opn ++ body ++ [";"%byte]) ++ post)
    by (rewrite <- !app_assoc; reflexivity).
  replace (e + 1) with (len (pre ++ opn ++ body ++ [";"%byte]))
    by (unfold e; rewrite !len_app; change (len [";"%byte]) with 1; lia).
  replace (len s) with (len ((pre ++ opn ++ body ++ [";"%byte]) ++ post))
    by (unfold s; rewrite <- !app_assoc; reflexivity).
  apply sub_app_right.
Qed.

Lemma shape_plain_pre :
  Forall plain_byte pre ->
  forall j, 0 <= j < p ->
    exists c, nth_error s (Z.to_nat j) = Some c /\ plain_byte c.
Proof.
  intros H j Hj. rewrite shape_pre by assumption. apply Forall_nth; assumption.
Qed.

Lemma shape_plain_post :
  Forall plain_byte post ->
  forall j, e + 1 <= j < len s ->
    exists c, nth_error s (Z.to_nat j) = Some c /\ plain_byte c.
Proof.
  intros H j Hj. rewrite shape_post by lia. apply Forall_nth; [assumption|].
  rewrite shape_len in Hj. lia.
Qed.

Lemma shape_run (P : byte -> Prop) :
  Forall P body ->
  forall i, b <= i < e ->
    exists c, nth_error s (Z.to_nat i) = Some c /\ P c.
Proof.
  intros H i Hi. rewrite shape_body by assumption. apply Forall_nth; [assumption|].
  unfold b, e in Hi. lia.
Qed.
End Shape.

Section DecodedText.
Variable u : Util.

Lemma run_escapeRune_RawWrite (pre post : list byte) (r e1 : Z) (w : BufWriter) :
  exists out,
    (RawWrite pre ;;; escapeRune u r ;;; ret (Some (e1 + 1), e1)) w
      = Ok ((Some (e1 + 1), e1), (w ++ escape_all pre) ++ out) /\
    (RawWrite pre ;;; escapeRune u r ;;; RawWrite post) w
      = Ok (tt, ((w ++ escape_all pre) ++ out) ++ escape_all post).
Proof.
  destruct (escapeRune_ok u r (w ++ escape_all pre)) as (out & Hout).
  exists out. unfold bind. rewrite !RawWrite_spec, Hout. rewrite RawWrite_spec.
  split; reflexivity.
Qed.

(** X7. A hexadecimal reference [&#x...;] (or [&#X...;]) in otherwise plain
    text is replaced by the escaped rune of its value, whatever the number
    of digits. *)
Theorem Write_hex (pre hs post : list byte) (x : byte) (w : BufWriter) :
  Forall plain_byte pre -> Forall plain_byte post ->
  x = "x"%byte \/ x = "X"%byte ->
  hs <> [] -> Forall (fun c => IsHexDecimal u c = true) hs ->
  IsHexDecimal u ";"%byte = false ->
  Write u (pre ++ bs "&#" ++ x :: hs ++ bs ";" ++ post) w
    = (RawWrite pre ;;; escapeRune u (rune (ParseUint hs 16 32)) ;;;
       RawWrite post) w.
Proof.
  intros Hpre Hpost Hx Hne Hhex Hstop.
  assert (Hl : 0 < len hs).
  { destruct hs as [|h0 hs']; [contradiction|].
    rewrite len_cons. pose proof (len_nonneg hs'). lia. }
  change (pre ++ bs "&#" ++ x :: hs ++ bs ";" ++ post)
    with (pre ++ ["&"%byte; "#"%byte; x] ++ hs ++ ";"%byte :: post).
  set (s := pre ++ ["&"%byte; "#"%byte; x] ++ hs ++ ";"%byte :: post).
  set (e := len pre + 3 + len hs).
  pose proof (len_nonneg pre) as Hp0. pose proof (len_nonneg post) as Hq0.
  assert (Hlen : len s = e + 1 + len post)
    by (apply (shape_len pre ["&"%byte; "#"%byte; x] hs post)).
  destruct (run_escapeRune_RawWrite pre post (rune (ParseUint hs 16 32)) e w)
    as (out & Href & Hall).
  rewrite Hall.
  replace post with (sub s (e + 1) (len s))
    by (apply (shape_sub_post pre ["&"%byte; "#"%byte; x] hs post)).
  apply (Write_decoded u s (len pre) e w); try lia.
  - apply (shape_plain_pre pre ["&"%byte; "#"%byte; x] hs post Hpre).
  - replace (len pre) with (len pre + 0) by lia.
    apply (shape_opn pre ["&"%byte; "#"%byte; x] hs post 0).
    change (len ["&"%byte; "#"%byte; x]) with 3. lia.
  - etransitivity; [|exact Href].
    rewrite (Write_reference_hex u s 0 (len pre) e w ltac:(lia) ltac:(lia)
               (shape_semi pre ["&"%byte; "#"%byte; x] hs post) x).
    + replace (sub s (len pre + 1 + 1 + 1) e) with hs
        by (symmetry; replace (len pre + 1 + 1 + 1) with (len pre + 3) by lia;
            apply (shape_sub_body pre ["&"%byte; "#"%byte; x] hs post)).
      replace (sub s 0 (len pre)) with pre
        by (symmetry; apply (shape_sub_pre pre ["&"%byte; "#"%byte; x] hs post)).
      reflexivity.
    + apply (shape_opn pre ["&"%byte; "#"%byte; x] hs post 1).
      change (len ["&"%byte; "#"%byte; x]) with 3. lia.
    + replace (len pre + 1 + 1) with (len pre + 2) by lia.
      apply (shape_opn pre ["&"%byte; "#"%byte; x] hs post 2).
      change (len ["&"%byte; "#"%byte; x]) with 3. lia.
    + exact Hx.
    + unfold e. lia.
    + intros i Hi.
      apply (shape_run pre ["&"%byte; "#"%byte; x] hs post _ Hhex).
      change (len ["&"%byte; "#"%byte; x]) with 3. unfold e in Hi. lia.
    + exact Hstop.
  - apply (shape_plain_post pre ["&"%byte; "#"%byte; x] hs post Hpost).
Qed.
End DecodedText.

Lemma digit_plain (c : byte) : in_range "0" "9" c = true -> plain_byte c.
Proof. destruct c; intros H; try discriminate H; split; discriminate. Qed.

Lemma digit_val_digit (c : byte) :
  in_range "0" "9" c = true ->
  digit_val c = Some (b2z c - 48) /\ 0 <= b2z c - 48 <= 9.
Proof.
  destruct c; intros H; try discriminate H;
    (split; [reflexivity|cbv; split; discriminate]).
Qed.

Lemma ParseUint_digits_cons (base maxVal : Z) (c : byte) (s : list byte) (n : Z) :
  ParseUint_digits base maxVal (c :: s) n
    = match digit_val c with
      | None => 0
      | Some d =>
          if base <=? d then 0
          else if (2 ^ 64 - 1) / base + 1 <=? n then maxVal
          else
            let n1 := n * base + d in
            if maxVal <? n1 then maxVal
            else ParseUint_digits base maxVal s n1
      end.
Proof. reflexivity. Qed.

Lemma ParseUint_digits_decimal (ds : list byte) :
  forall n,
    Forall (fun c => in_range "0" "9" c = true) ds ->
    0 <= n -> (n + 1) * 10 ^ len ds <= 2 ^ 32 ->
    ParseUint_digits 10 (2 ^ 32 - 1) ds n
      = fold_left (fun acc c => acc * 10 + (b2z c - 48)) ds n /\
    0 <= fold_left (fun acc c => acc * 10 + (b2z c - 48)) ds n < 2 ^ 32.
Proof.
  induction ds as [|c ds IH]; intros n Hd Hn Hb.
  - simpl in *. split; [reflexivity|]. change (len (@nil byte)) with 0 in Hb. lia.
  - inversion Hd as [|? ? Hc Hds]; subst.
    destruct (digit_val_digit c Hc) as [Hv Hr].
    rewrite len_cons in Hb.
    pose proof (len_nonneg ds) as Hl.
    rewrite Z.pow_add_r in Hb by lia. change (10 ^ 1) with 10 in Hb.
    assert (Hpow : 1 <= 10 ^ len ds) by (apply Z.pow_le_mono_r with (b := 0) (c := len ds) (a := 10) in Hl; lia).
    assert (Hn1 : (n * 10 + (b2z c - 48) + 1) * 10 ^ len ds <= 2 ^ 32) by nia.
    rewrite ParseUint_digits_cons, Hv.
    replace (10 <=? b2z c - 48) with false by (symmetry; apply Z.leb_gt; lia).
    replace ((2 ^ 64 - 1) / 10 + 1 <=? n) with false
      by (symmetry; apply Z.leb_gt; change ((2 ^ 64 - 1) / 10 + 1) with 1844674407370955162;
          change (2 ^ 32) with 4294967296 in Hb; nia).
    cbv zeta.
    replace (2 ^ 32 - 1 <? n * 10 + (b2z c - 48)) with false
      by (symmetry; apply Z.ltb_ge; nia).
    simpl fold_left. apply IH; [assumption|lia|assumption].
Qed.

Lemma ParseUint_decimal (d0 : byte) (rest : list byte) :
  in_range "1" "9" d0 = true ->
  Forall (fun c => in_range "0" "9" c = true) rest ->
  len (d0 :: rest) <= 7 ->
  rune (ParseUint (d0 :: rest) 0 32) = decimal_value (d0 :: rest) /\
  0 < decimal_value (d0 :: rest) < 10 ^ 7.
Proof.
  intros H0 Hrest Hl.
  assert (Hd0 : in_range "0" "9" d0 = true /\ Byte.eqb d0 "0"%byte = false
                /\ 1 <= b2z d0 - 48)
    by (clear - H0; destruct d0; try discriminate H0;
        (split; [reflexivity|split; [reflexivity|cbv; discriminate]])).
  destruct Hd0 as (Hd & Hz & Hpos).
  assert (Hall : Forall (fun c => in_range "0" "9" c = true) (d0 :: rest))
    by (constructor; assumption).
  pose proof (len_nonneg rest) as Hr. rewrite len_cons in Hl.
  assert (Hpow : 10 ^ len rest <= 10 ^ 6) by (apply Z.pow_le_mono_r; lia).
  destruct (ParseUint_digits_decimal (d0 :: rest) 0 Hall ltac:(lia)) as [Hp Hb].
  { rewrite len_cons, Z.pow_add_r by lia. change (10 ^ 1) with 10.
    change (2 ^ 32) with 4294967296. change (10 ^ 6) with 1000000 in Hpow. lia. }
  unfold ParseUint. change (0 =? 0) with true. cbv iota. rewrite Hz.
  rewrite Hp. fold (decimal_value (d0 :: rest)) in *.
  (* the bound, digit by digit *)
  assert (Hlt : forall ds n, Forall (fun c => in_range "0" "9" c = true) ds ->
                  0 <= n ->
                  n * 10 ^ len ds
                    <= fold_left (fun acc c => acc * 10 + (b2z c - 48)) ds n
                    < (n + 1) * 10 ^ len ds).
  { clear. induction ds as [|c ds IH]; intros n Hd Hn.
    - simpl. change (len (@nil byte)) with 0. lia.
    - inversion Hd as [|? ? Hc Hds]; subst.
      destruct (digit_val_digit c Hc) as [_ Hr].
      rewrite len_cons. pose proof (len_nonneg ds).
      rewrite Z.pow_add_r by lia. change (10 ^ 1) with 10.
      simpl fold_left.
      specialize (IH (n * 10 + (b2z c - 48)) Hds ltac:(lia)).
      assert (0 < 10 ^ len ds) by (apply Z.pow_pos_nonneg; lia).
      nia. }
  assert (Hv : 1 * 10 ^ len rest <= decimal_value (d0 :: rest)
               < 10 * 10 ^ len rest).
  { change (decimal_value (d0 :: rest))
      with (fold_left (fun acc c => acc * 10 + (b2z c - 48)) rest (b2z d0 - 48)).
    pose proof (Hlt rest (b2z d0 - 48) Hrest ltac:(lia)) as Hx.
    destruct (digit_val_digit d0 Hd) as [_ Hr9].
    assert (0 < 10 ^ len rest) by (apply Z.pow_pos_nonneg; lia).
    nia. }
  assert (H1 : 0 < 10 ^ len rest) by (apply Z.pow_pos_nonneg; lia).
  change (10 ^ 6) with 1000000 in Hpow. change (10 ^ 7) with 10000000.
  split; [|lia].
  unfold rune. change (2 ^ 32) with 4294967296. change (2 ^ 31) with 2147483648.
  rewrite Z.mod_small by lia.
  replace (decimal_value (d0 :: rest) <? 2147483648) with true
    by (symmetry; apply Z.ltb_lt; lia).
  reflexivity.
Qed.

Lemma len_pos (c : byte) (l : list byte) : 0 < len (c :: l).
Proof. rewrite len_cons. pose proof (len_nonneg l). lia. Qed.

Section DecodedText2.
Variable u : Util.

(** X8. A decimal reference of at most seven digits that does not start with
    0, in otherwise plain text, is replaced by the escaped rune of its
    decimal value. *)
Theorem Write_decimal (pre rest post : list byte) (d0 : byte) (w : BufWriter) :
  Forall plain_byte pre -> Forall plain_byte post ->
  in_range "1" "9" d0 = true ->
  Forall (fun c => in_range "0" "9" c = true) rest ->
  Forall (fun c => IsNumeric u c = true) (d0 :: rest) ->
  IsNumeric u ";"%byte = false ->
  len (d0 :: rest) <= 7 ->
  Write u (pre ++ bs "&#" ++ (d0 :: rest) ++ bs ";" ++ post) w
    = (RawWrite pre ;;; escapeRune u (decimal_value (d0 :: rest)) ;;;
       RawWrite post) w.
Proof.
  intros Hpre Hpost Hd0 Hrest Hnum Hstop Hl7.
  destruct (ParseUint_decimal d0 rest Hd0 Hrest Hl7) as [Hval _].
  pose proof (len_pos d0 rest) as Hl.
  set (ds := d0 :: rest) in *.
  change (pre ++ bs "&#" ++ ds ++ bs ";" ++ post)
    with (pre ++ ["&"%byte; "#"%byte] ++ ds ++ ";"%byte :: post).
  set (s := pre ++ ["&"%byte; "#"%byte] ++ ds ++ ";"%byte :: post).
  set (e := len pre + 2 + len ds).
  pose proof (len_nonneg pre) as Hp0. pose proof (len_nonneg post) as Hq0.
  assert (Hlen : len s = e + 1 + len post)
    by (apply (shape_len pre ["&"%byte; "#"%byte] ds post)).
  destruct (run_escapeRune_RawWrite u pre post (decimal_value ds) e w)
    as (out & Href & Hall).
  rewrite Hall.
  replace post with (sub s (e + 1) (len s))
    by (apply (shape_sub_post pre ["&"%byte; "#"%byte] ds post)).
  apply (Write_decoded u s (len pre) e w); try lia.
  - apply (shape_plain_pre pre ["&"%byte; "#"%byte] ds post Hpre).
  - replace (len pre) with (len pre + 0) by lia.
    apply (shape_opn pre ["&"%byte; "#"%byte] ds post 0).
    change (len ["&"%byte; "#"%byte]) with 2. lia.
  - etransitivity; [|exact Href].
    rewrite (Write_reference_decimal u s 0 (len pre) e w ltac:(lia) ltac:(lia)
               (shape_semi pre ["&"%byte; "#"%byte] ds post) d0).
    + replace (e - (len pre + 1 + 1) <? 8) with true
        by (symmetry; apply Z.ltb_lt; unfold e; lia).
      replace (sub s (len pre + 1 + 1) e) with ds
        by (symmetry; replace (len pre + 1 + 1) with (len pre + 2) by lia;
            apply (shape_sub_body pre ["&"%byte; "#"%byte] ds post)).
      replace (sub s 0 (len pre)) with pre
        by (symmetry; apply (shape_sub_pre pre ["&"%byte; "#"%byte] ds post)).
      rewrite Hval. reflexivity.
    + apply (shape_opn pre ["&"%byte; "#"%byte] ds post 1).
      change (len ["&"%byte; "#"%byte]) with 2. lia.
    + replace (len pre + 1 + 1) with (len pre + 2) by lia.
      etransitivity;
        [apply (shape_body pre ["&"%byte; "#"%byte] ds post);
         change (len ["&"%byte; "#"%byte]) with 2; lia|].
      change (len ["&"%byte; "#"%byte]) with 2.
      replace (len pre + 2 - (len pre + 2)) with 0 by lia. reflexivity.
    + clear - Hd0. destruct d0; try discriminate Hd0; reflexivity.
    + unfold e. lia.
    + intros i Hi.
      apply (shape_run pre ["&"%byte; "#"%byte] ds post _ Hnum).
      change (len ["&"%byte; "#"%byte]) with 2. unfold e in Hi. lia.
    + exact Hstop.
  - apply (shape_plain_post pre ["&"%byte; "#"%byte] ds post Hpost).
Qed.

(** The positions of a text other than that of its [&]. *)
Lemma shape_plain_rest (pre opn body post : list byte) :
  Forall plain_byte pre -> Forall plain_byte opn -> Forall plain_byte body ->
  Forall plain_byte post ->
  forall j, 0 <= j < len (pre ++ "&"%byte :: opn ++ body ++ ";"%byte :: post) ->
    j <> len pre ->
    exists c,
      nth_error (pre ++ "&"%byte :: opn ++ body ++ ";"%byte :: post) (Z.to_nat j)
        = Some c /\ plain_byte c.
Proof.
  intros Hpre Hopn Hbody Hpost j Hj Hne.
  change (pre ++ "&"%byte :: opn ++ body ++ ";"%byte :: post)
    with (pre ++ ("&"%byte :: opn) ++ body ++ ";"%byte :: post) in *.
  pose proof (shape_len pre ("&"%byte :: opn) body post) as Hlen.
  rewrite len_cons in Hlen.
  pose proof (len_nonneg pre). pose proof (len_nonneg opn).
  pose proof (len_nonneg body). pose proof (len_nonneg post).
  destruct (Z.lt_ge_cases j (len pre)) as [K1|K1].
  - apply shape_plain_pre; [assumption|lia].
  - destruct (Z.lt_ge_cases j (len pre + (1 + len opn))) as [K2|K2].
    + replace j with (len pre + (j - len pre)) by lia.
      rewrite shape_opn by (rewrite len_cons; lia).
      replace (Z.to_nat (j - len pre)) with (S (Z.to_nat (j - len pre - 1))) by lia.
      simpl nth_error. apply Forall_nth; [assumption|lia].
    + destruct (Z.lt_ge_cases j (len pre + (1 + len opn) + len body)) as [K3|K3].
      * apply (shape_run pre ("&"%byte :: opn) body post _ Hbody).
        rewrite len_cons. lia.
      * destruct (Z.eq_dec j (len pre + (1 + len opn) + len body)) as [->|K4].
        -- exists ";"%byte. split; [|split; discriminate].
           rewrite <- (shape_semi pre ("&"%byte :: opn) body post).
           rewrite len_cons. reflexivity.
        -- apply shape_plain_post; [assumption|]. rewrite len_cons. lia.
Qed.

(** X9. A decimal reference of eight digits or more is not decoded: the text
    is written as [RawWrite] writes it. *)
Theorem Write_decimal_long (pre ds post : list byte) (w : BufWriter) :
  Forall plain_byte pre -> Forall plain_byte post ->
  Forall (fun c => in_range "0" "9" c = true) ds ->
  Forall (fun c => IsNumeric u c = true) ds ->
  IsNumeric u ";"%byte = false ->
  8 <= len ds ->
  Write u (pre ++ bs "&#" ++ ds ++ bs ";" ++ post) w
    = RawWrite (pre ++ bs "&#" ++ ds ++ bs ";" ++ post) w.
Proof.
  intros Hpre Hpost Hdig Hnum Hstop Hl8.
  assert (Hdp : Forall plain_byte ds).
  { rewrite Forall_forall in *. intros c Hc. apply digit_plain. auto. }
  rewrite RawWrite_spec.
  destruct ds as [|d0 rest]; [change (len (@nil byte)) with 0 in Hl8; lia|].
  assert (Hd0 : in_range "0" "9" d0 = true) by (inversion Hdig; assumption).
  set (ds := d0 :: rest) in *.
  change (pre ++ bs "&#" ++ ds ++ bs ";" ++ post)
    with (pre ++ ["&"%byte; "#"%byte] ++ ds ++ ";"%byte :: post).
  set (s := pre ++ ["&"%byte; "#"%byte] ++ ds ++ ";"%byte :: post).
  set (e := len pre + 2 + len ds).
  pose proof (len_nonneg pre) as Hp0. pose proof (len_nonneg post) as Hq0.
  assert (Hlen : len s = e + 1 + len post)
    by (apply (shape_len pre ["&"%byte; "#"%byte] ds post)).
  apply (Write_undecoded u s (len pre) w w); try (unfold e in *; lia).
  - apply (shape_plain_rest pre ["#"%byte] ds post); try assumption.
    constructor; [split; discriminate|constructor].
  - replace (len pre) with (len pre + 0) by lia.
    apply (shape_opn pre ["&"%byte; "#"%byte] ds post 0).
    change (len ["&"%byte; "#"%byte]) with 2. lia.
  - rewrite (Write_reference_decimal u s 0 (len pre) e w ltac:(lia) ltac:(lia)
               (shape_semi pre ["&"%byte; "#"%byte] ds post) d0).
    + replace (e - (len pre + 1 + 1) <? 8) with false
        by (symmetry; apply Z.ltb_ge; unfold e; lia).
      reflexivity.
    + apply (shape_opn pre ["&"%byte; "#"%byte] ds post 1).
      change (len ["&"%byte; "#"%byte]) with 2. lia.
    + replace (len pre + 1 + 1) with (len pre + 2) by lia.
      etransitivity;
        [apply (shape_body pre ["&"%byte; "#"%byte] ds post);
         change (len ["&"%byte; "#"%byte]) with 2; unfold e in *; lia|].
      change (len ["&"%byte; "#"%byte]) with 2.
      replace (len pre + 2 - (len pre + 2)) with 0 by lia.
      reflexivity.
    + exact Hd0.
    + unfold e. lia.
    + intros i Hi.
      apply (shape_run pre ["&"%byte; "#"%byte] ds post _ Hnum).
      change (len ["&"%byte; "#"%byte]) with 2. unfold e in Hi. lia.
    + exact Hstop.
Qed.

(** X10. A named reference [&name;] in otherwise plain text is replaced by
    the escaped characters of the entity when [util.LookUpHTML5EntityByName]
    knows the name, and written as [RawWrite] writes it otherwise. *)
Theorem Write_named (pre rest post : list byte) (c1 : byte) (w : BufWriter) :
  Forall plain_byte pre -> Forall plain_byte post ->
  c1 <> "#"%byte ->
  Forall plain_byte (c1 :: rest) ->
  Forall (fun c => IsAlphaNumeric u c = true) (c1 :: rest) ->
  IsAlphaNumeric u ";"%byte = false ->
  Write u (pre ++ bs "&" ++ (c1 :: rest) ++ bs ";" ++ post) w
    = match LookUpHTML5EntityByName u (c1 :: rest) with
      | Some characters => RawWrite (pre ++ characters ++ post) w
      | None => RawWrite (pre ++ bs "&" ++ (c1 :: rest) ++ bs ";" ++ post) w
      end.
Proof.
  intros Hpre Hpost Hc1 Hplain Halnum Hstop.
  pose proof (len_pos c1 rest) as Hl.
  set (name := c1 :: rest) in *.
  change (pre ++ bs "&" ++ name ++ bs ";" ++ post)
    with (pre ++ ["&"%byte] ++ name ++ ";"%byte :: post).
  set (s := pre ++ ["&"%byte] ++ name ++ ";"%byte :: post).
  set (e := len pre + 1 + len name).
  pose proof (len_nonneg pre) as Hp0. pose proof (len_nonneg post) as Hq0.
  assert (Hlen : len s = e + 1 + len post)
    by (apply (shape_len pre ["&"%byte] name post)).
  assert (Hamp : nth_error s (Z.to_nat (len pre)) = Some "&"%byte).
  { replace (len pre) with (len pre + 0) by lia.
    apply (shape_opn pre ["&"%byte] name post 0).
    change (len ["&"%byte]) with 1. lia. }
  assert (Href : Write_reference u s (len s) 0 (len pre) w
                 = match LookUpHTML5EntityByName u name with
                   | Some characters =>
                       (RawWrite pre ;;; RawWrite characters ;;;
                        ret (Some (e + 1), e)) w
                   | None => Ok ((None, len pre), w)
                   end).
  { rewrite (Write_reference_named u s 0 (len pre) e w ltac:(lia) ltac:(lia)
               (shape_semi pre ["&"%byte] name post) c1).
    - replace (sub s (len pre + 1) e) with name
        by (symmetry; apply (shape_sub_body pre ["&"%byte] name post)).
      replace (sub s 0 (len pre)) with pre
        by (symmetry; apply (shape_sub_pre pre ["&"%byte] name post)).
      reflexivity.
    - etransitivity;
        [apply (shape_body pre ["&"%byte] name post);
         change (len ["&"%byte]) with 1; unfold e in *; lia|].
      change (len ["&"%byte]) with 1.
      replace (len pre + 1 - (len pre + 1)) with 0 by lia. reflexivity.
    - exact Hc1.
    - unfold e. lia.
    - intros i Hi.
      apply (shape_run pre ["&"%byte] name post _ Halnum).
      change (len ["&"%byte]) with 1. unfold e in Hi. lia.
    - exact Hstop. }
  destruct (LookUpHTML5EntityByName u name) as [characters|].
  - rewrite RawWrite_spec, !escape_all_app, !app_assoc.
    replace (escape_all post) with (escape_all (sub s (e + 1) (len s)))
      by (f_equal; apply (shape_sub_post pre ["&"%byte] name post)).
    apply (Write_decoded u s (len pre) e w); try lia.
    + apply (shape_plain_pre pre ["&"%byte] name post Hpre).
    + exact Hamp.
    + rewrite Href. unfold bind. rewrite !RawWrite_spec. reflexivity.
    + apply (shape_plain_post pre ["&"%byte] name post Hpost).
  - rewrite RawWrite_spec.
    apply (Write_undecoded u s (len pre) w w); try (unfold e in *; lia).
    + apply (shape_plain_rest pre [] name post); try assumption. constructor.
    + exact Hamp.
    + exact Href.
Qed.
End DecodedText2.

(** ** Backslash escapes *)

Section Backslash.
Variable u : Util.

Lemma Write_step_backslash (s : list byte) (limit n i : Z) (w : BufWriter) :
  0 <= i -> nth_error s (Z.to_nat i) = Some "\"%byte ->
  Write_step u s limit false n i w = Ok ((true, n, i), w).
Proof.
  intros Hi Hc. unfold Write_step.
  rewrite (bind_ok _ _ _ _ _ (index_at s i _ w Hi Hc)). reflexivity.
Qed.

Lemma Write_step_escaped_punct (s : list byte) (limit n i : Z) (c : byte)
    (w : BufWriter) :
  0 <= n <= i - 1 -> nth_error s (Z.to_nat i) = Some c -> IsPunct u c = true ->
  Write_step u s limit true n i w
    = Ok ((false, i, i), w ++ escape_all (sub s n (i - 1))).
Proof.
  intros Hn Hc Hp. unfold Write_step.
  rewrite (bind_ok _ _ _ _ _ (index_at s i _ w ltac:(lia) Hc)).
  rewrite Hp. cbn [andb].
  assert (Z.to_nat i < length s)%nat by (apply nth_error_Some; congruence).
  unfold bind. rewrite slice_ok by (unfold len; lia).
  rewrite RawWrite_spec. reflexivity.
Qed.

Lemma Write_step_escaped_other (s : list byte) (limit n i : Z) (c : byte)
    (w : BufWriter) :
  0 <= i -> nth_error s (Z.to_nat i) = Some c -> IsPunct u c = false ->
  plain_byte c ->
  Write_step u s limit true n i w = Ok ((false, n, i), w).
Proof.
  intros Hi Hc Hp [Ha Hb]. unfold Write_step.
  rewrite (bind_ok _ _ _ _ _ (index_at s i _ w Hi Hc)).
  rewrite Hp. cbn [andb]. rewrite (eqb_neq _ _ Ha).
  unfold bind, ret. rewrite (eqb_neq _ _ Hb). reflexivity.
Qed.

(** X6. A backslash in otherwise plain text: before a punctuation byte the
    backslash is dropped and the byte written escaped; before any other byte
    the backslash is kept. *)
Theorem Write_backslash (pre post : list byte) (c : byte) (w : BufWriter) :
  Forall plain_byte pre -> Forall plain_byte post ->
  (IsPunct u c = false -> plain_byte c) ->
  Write u (pre ++ bs "\" ++ c :: post) w
    = if IsPunct u c then RawWrite (pre ++ c :: post) w
      else RawWrite (pre ++ bs "\" ++ c :: post) w.
Proof.
  intros Hpre Hpost Hc.
  change (pre ++ bs "\" ++ c :: post) with (pre ++ ["\"%byte; c] ++ post).
  set (s := pre ++ ["\"%byte; c] ++ post).
  pose proof (len_nonneg pre) as Hp0. pose proof (len_nonneg post) as Hq0.
  assert (Hlen : len s = len pre + 2 + len post).
  { unfold s. rewrite !len_app. change (len ["\"%byte; c]) with 2. lia. }
  assert (Hb : nth_error s (Z.to_nat (len pre)) = Some "\"%byte).
  { replace (len pre) with (len pre + 0) by lia. unfold s.
    rewrite nth_app_at by lia. reflexivity. }
  assert (Hcc : nth_error s (Z.to_nat (len pre + 1)) = Some c).
  { unfold s. rewrite nth_app_at by lia. reflexivity. }
  assert (Hplain_pre : forall j, 0 <= j < 0 + Z.of_nat (Z.to_nat (len pre)) ->
            exists x, nth_error s (Z.to_nat j) = Some x /\ plain_byte x).
  { intros j Hj. unfold s. rewrite nth_app_before by lia.
    apply Forall_nth; [assumption|lia]. }
  assert (Hplain_post : forall j,
            len pre + 1 + 1 <= j < len pre + 1 + 1 + Z.of_nat (Z.to_nat (len post)) ->
            exists x, nth_error s (Z.to_nat j) = Some x /\ plain_byte x).
  { intros j Hj. unfold s.
    replace j with (len pre + (2 + (j - len pre - 2))) by lia.
    rewrite nth_app_at by lia.
    change (["\"%byte; c] ++ post) with (["\"%byte; c] ++ post).
    replace (2 + (j - len pre - 2)) with (len ["\"%byte; c] + (j - len pre - 2))
      by (change (len ["\"%byte; c]) with 2; lia).
    rewrite nth_app_at by lia. apply Forall_nth; [assumption|lia]. }
  unfold Write. cbv zeta.
  replace (length s)
    with (Z.to_nat (len pre) + S (S (Z.to_nat (len post) + 0)))%nat
    by (unfold len in *; lia).
  unfold bind at 1.
  rewrite Write_loop_skip by (try lia; exact Hplain_pre).
  rewrite Z2Nat.id, Z.add_0_l by lia.
  rewrite (Write_loop_step u _ s (len s) false 0 (len pre) w true 0 (len pre) w);
    [|lia|apply Write_step_backslash; [lia|exact Hb]].
  destruct (IsPunct u c) eqn:Ep.
  - rewrite (Write_loop_step u _ s (len s) true 0 (len pre + 1) w
               false (len pre + 1) (len pre + 1)
               (w ++ escape_all (sub s 0 (len pre + 1 - 1))));
      [|lia|apply Write_step_escaped_punct with (c := c); [lia|exact Hcc|exact Ep]].
    rewrite Write_loop_skip by (try lia; exact Hplain_post).
    rewrite Write_loop_done by lia.
    unfold bind. rewrite slice_ok by lia. rewrite !RawWrite_spec.
    replace (len pre + 1 - 1) with (len pre) by lia.
    replace (sub s 0 (len pre)) with pre by (symmetry; apply sub_app_left).
    replace (sub s (len pre + 1) (len s)) with (c :: post).
    + rewrite escape_all_app, app_assoc. reflexivity.
    + symmetry. unfold s.
      replace (pre ++ ["\"%byte; c] ++ post) with ((pre ++ ["\"%byte]) ++ c :: post)
        by (rewrite <- app_assoc; reflexivity).
      replace (len pre + 1) with (len (pre ++ ["\"%byte]))
        by (rewrite len_app; reflexivity).
      apply sub_app_right.
  - rewrite (Write_loop_step u _ s (len s) true 0 (len pre + 1) w
               false 0 (len pre + 1) w);
      [|lia|apply Write_step_escaped_other with (c := c);
            [lia|exact Hcc|exact Ep|exact (Hc eq_refl)]].
    rewrite Write_loop_skip by (try lia; exact Hplain_post).
    rewrite Write_loop_done by lia.
    unfold bind. rewrite slice_ok by lia. rewrite sub_all. reflexivity.
Qed.
End Backslash.

(** ** Options *)

Lemma NewRenderer_fold (c : Config) (opts : list Option_) :
  let c' := fold_left (fun c opt => SetHTMLOption opt c) opts c in
  Config_XHTML c' = Config_XHTML c || existsb is_WithXHTML opts /\
  Config_SoftLineBreak c'
    = Config_SoftLineBreak c || existsb is_WithSoftLineBreak opts /\
  Config_Writer c' = last_writer (Config_Writer c) opts.
Proof.
  revert c. induction opts as [|o opts IH]; intros c; simpl.
  - rewrite !orb_false_r. auto.
  - destruct (IH (SetHTMLOption o c)) as (H1 & H2 & H3).
    rewrite H1, H2, H3. destruct o; simpl;
      rewrite ?orb_true_r, ?orb_false_r, ?orb_true_l; auto.
Qed.

(** X11. The renderer that [NewRenderer] builds: XHTML and soft line breaks
    are on exactly when the option is among the arguments, and the writer is
    that of the last [WithWriter], the default writer when there is none. *)
Theorem NewRenderer_options (u : Util) (opts : list Option_) :
  Config_XHTML (NewRenderer u opts) = existsb is_WithXHTML opts /\
  Config_SoftLineBreak (NewRenderer u opts) = existsb is_WithSoftLineBreak opts /\
  Config_Writer (NewRenderer u opts) = last_writer (DefaultWriter u) opts.
Proof. exact (NewRenderer_fold (NewConfig u) opts). Qed.


(** X13. [SetOption] ignores a name that is none of the three option names,
    and panics on a known name whose value has the wrong type. *)
Theorem SetOption_edge (c : Config) (name : string) (value : Value) :
  (name <> name_SoftLineBreak -> name <> name_XHTML -> name <> name_TextWriter ->
   SetOption c name value = Ok c) /\
  (name = name_SoftLineBreak \/ name = name_XHTML ->
   (forall b, value <> VBool b) -> SetOption c name value = Panic) /\
  (name = name_TextWriter -> (forall wr, value <> VWriter wr) ->
   SetOption c name value = Panic).
Proof.
  split; [|split].
  - intros H1 H2 H3. unfold SetOption.
    destruct (String.eqb_spec name name_SoftLineBreak); [contradiction|].
    destruct (String.eqb_spec name name_XHTML); [contradiction|].
    destruct (String.eqb_spec name name_TextWriter); [contradiction|reflexivity].
  - intros [-> | ->] Hv; destruct value as [b| |]; try reflexivity;
      exfalso; apply (Hv b); reflexivity.
  - intros -> Hv. destruct value as [|wr|]; try reflexivity.
    exfalso. apply (Hv wr). reflexivity.
Qed.

(** ** Nodes *)

Ltac sink := cbv [bind ret w_Write w_WriteString w_WriteByte no_error].

Section Nodes.
Variable u : Util.
Variable bytes_ToLower : list byte -> list byte.
Variable Node_Text : ast.Node -> list byte -> list byte.
Variable r : Config.
Variable source : list byte.

(** X14. The calls that write nothing: a document and raw HTML in both
    directions, a text block on entering, a thematic break, an autolink, an
    image and a text on leaving return [WalkContinue] with the sink as it
    was. *)
Theorem Render_silent (n : ast.Node) (entering : bool) (w : BufWriter) :
  silent n entering = true ->
  Render u bytes_ToLower Node_Text r source n entering w = Ok ((ast.WalkContinue, None), w).
Proof.
  destruct n as [|k fc ns]; [discriminate|].
  destruct k; simpl; intros H; try discriminate; subst;
    try (destruct entering; try discriminate); reflexivity.
Qed.

Lemma heading_index (Level : Z) (w : BufWriter) :
  0 <= Level <= 6 ->
  index (bs "0123456") Level w = Ok (heading_digit Level, w).
Proof.
  intros H.
  assert (Hc : Level = 0 \/ Level = 1 \/ Level = 2 \/ Level = 3 \/ Level = 4
               \/ Level = 5 \/ Level = 6) by lia.
  destruct Hc as [->|[->|[->|[->|[->|[->| ->]]]]]]; reflexivity.
Qed.

Lemma heading_index_out (Level : Z) (w : BufWriter) :
  Level < 0 \/ 6 < Level -> index (bs "0123456") Level w = Panic.
Proof.
  intros H. unfold index. change (len (bs "0123456")) with 7.
  destruct (0 <=? Level) eqn:E1; [|reflexivity].
  apply Z.leb_le in E1.
  replace (Level <? 7) with false by (symmetry; apply Z.ltb_ge; lia).
  reflexivity.
Qed.

(** X15. A heading of level 0 to 6 opens with [<hN], its ID unescaped in an
    [id] attribute when it has one, and closes with [</hN>] and a line feed;
    a level outside 0 to 6 panics in both directions. *)
Theorem Heading_renders (Level : Z) (ID : option (list byte)) (fc ns : ast.Node)
    (w : BufWriter) :
  (0 <= Level <= 6 ->
   Render u bytes_ToLower Node_Text r source (ast.Mk (ast.Heading Level ID) fc ns) true w
     = Ok ((ast.WalkContinue, None),
           w ++ bs "<h" ++ [heading_digit Level]
             ++ match ID with
                | Some id => bs " id=" ++ [dquote] ++ id ++ [dquote]
                | None => []
                end
             ++ bs ">") /\
   Render u bytes_ToLower Node_Text r source (ast.Mk (ast.Heading Level ID) fc ns) false w
     = Ok ((ast.WalkContinue, None),
           w ++ bs "</h" ++ [heading_digit Level] ++ bs ">" ++ [lf])) /\
  (Level < 0 \/ 6 < Level ->
   forall entering,
     Render u bytes_ToLower Node_Text r source (ast.Mk (ast.Heading Level ID) fc ns) entering w = Panic).
Proof.
  split.
  - intros H. cbn [Render]. unfold renderHeading. split.
    + sink. rewrite heading_index by assumption.
      destruct ID; sink; rewrite ?app_nil_r, <- ?app_assoc; reflexivity.
    + sink. rewrite heading_index by assumption.
      rewrite <- ?app_assoc. reflexivity.
  - intros H entering. cbn [Render]. unfold renderHeading.
    destruct entering; sink; rewrite heading_index_out by assumption; reflexivity.
Qed.

Lemma copyLines_spec (lines : list ast.Segment) (w : BufWriter) :
  forallb (seg_ok source) lines = true ->
  copyLines source lines w = Ok (tt, w ++ lines_value source lines).
Proof.
  revert w. induction lines as [|line rest IH]; intros w H; simpl.
  - rewrite app_nil_r. reflexivity.
  - simpl in H. apply andb_prop in H. destruct H as [H1 H2].
    unfold seg_ok in H1. apply andb_prop in H1. destruct H1 as [H1 H3].
    apply andb_prop in H1. destruct H1 as [H0 H1]. apply Z.leb_le in H0, H1, H3.
    unfold bind, ast.Value. rewrite slice_ok by lia. unfold w_Write.
    rewrite IH by assumption. unfold lines_value. simpl.
    rewrite app_assoc. reflexivity.
Qed.

(** X16. An HTML block is copied from the source unescaped: its lines on
    entering, its closure line, when it has one, on leaving. *)
Theorem HTMLBlock_renders (Lines : list ast.Segment) (HasClosure : bool)
    (ClosureLine : ast.Segment) (fc ns : ast.Node) (w : BufWriter) :
  (forallb (seg_ok source) Lines = true ->
   Render u bytes_ToLower Node_Text r source (ast.Mk (ast.HTMLBlock Lines HasClosure ClosureLine) fc ns) true w
     = Ok ((ast.WalkContinue, None), w ++ lines_value source Lines)) /\
  (HasClosure = false \/ seg_ok source ClosureLine = true ->
   Render u bytes_ToLower Node_Text r source (ast.Mk (ast.HTMLBlock Lines HasClosure ClosureLine) fc ns) false w
     = Ok ((ast.WalkContinue, None),
           w ++ if HasClosure
                then sub source (ast.Start ClosureLine) (ast.Stop ClosureLine)
                else [])).
Proof.
  split.
  - intros H. cbn [Render]. unfold renderHTMLBlock, no_error, bind.
    rewrite copyLines_spec by assumption. reflexivity.
  - intros H. cbn [Render]. unfold renderHTMLBlock, no_error.
    destruct HasClosure.
    + destruct H as [H|H]; [discriminate|].
      unfold seg_ok in H. apply andb_prop in H. destruct H as [H H3].
      apply andb_prop in H. destruct H as [H0 H1]. apply Z.leb_le in H0, H1, H3.
      unfold bind, ast.Value. rewrite slice_ok by lia. reflexivity.
    + sink. rewrite app_nil_r. reflexivity.
Qed.

(** X17. A text node on entering: raw text is copied unescaped and is never
    followed by a break; other text goes through the writer and is followed
    by [<br>] (or [<br />]) and a line feed on a hard break, or on a soft
    break when the renderer asks for it, by a line feed alone on any other
    soft break. *)
Theorem Text_renders (t : ast.Text) (fc ns : ast.Node) (w : BufWriter) :
  seg_ok source (ast.Segment_ t) = true ->
  let value := sub source (ast.Start (ast.Segment_ t)) (ast.Stop (ast.Segment_ t)) in
  Render u bytes_ToLower Node_Text r source (ast.Mk (ast.TextNode t) fc ns) true w
    = if ast.IsRaw t then Ok ((ast.WalkContinue, None), w ++ value)
      else
        match Writer_Write (Config_Writer r) value w with
        | Ok (_, w1) => Ok ((ast.WalkContinue, None), w1 ++ text_break r t)
        | Panic => Panic
        | OutOfFuel => OutOfFuel
        end.
Proof.
  intros H value. unfold seg_ok in H. apply andb_prop in H. destruct H as [H H3].
  apply andb_prop in H. destruct H as [H0 H1]. apply Z.leb_le in H0, H1, H3.
  cbn [Render]. unfold renderText, no_error. cbn [negb].
  destruct (ast.IsRaw t).
  - unfold bind, ast.Value. rewrite slice_ok by lia. reflexivity.
  - unfold bind at 1. unfold bind at 1. unfold bind at 1.
    unfold ast.Value. rewrite slice_ok by lia. fold value.
    unfold bind at 1.
    destruct (Writer_Write (Config_Writer r) value w) as [[[] w1]| |];
      try reflexivity.
    unfold text_break.
    destruct (ast.HardLineBreak t || (ast.SoftLineBreak t && Config_SoftLineBreak r));
      [destruct (Config_XHTML r)|destruct (ast.SoftLineBreak t)];
      sink; rewrite ?app_nil_r; reflexivity.
Qed.
End Nodes.

(** ** Nodes under the default writer *)

Lemma Value_spec (source : list byte) (seg : ast.Segment) (w : BufWriter) :
  ast.Value seg source w
    = if seg_ok source seg
      then Ok (sub source (ast.Start seg) (ast.Stop seg), w) else Panic.
Proof. unfold ast.Value, slice, seg_ok. destruct (_ && _); reflexivity. Qed.

Lemma first_space_split (info : list byte) :
  forall i,
    exists k : nat,
      first_space info i = i + Z.of_nat k /\ (k <= length info)%nat /\
      ~ In " "%byte (firstn k info) /\
      (skipn k info = [] \/ exists rest, skipn k info = " "%byte :: rest).
Proof.
  induction info as [|c info IH]; intros i.
  - exists 0%nat. simpl. repeat split; try lia; auto.
  - simpl. destruct (Byte.eqb c " "%byte) eqn:E.
    + apply Byte.byte_dec_bl in E. subst c.
      exists 0%nat. simpl. repeat split; try lia; eauto.
    + destruct (IH (i + 1)) as (k & H1 & H2 & H3 & H4).
      exists (S k). simpl. repeat split; try lia.
      * intros [Hc|Hc]; [|exact (H3 Hc)].
        subst c. discriminate.
      * exact H4.
Qed.

Lemma language_of_spec (info : list byte) :
  exists rest,
    info = language_of info ++ rest /\
    ~ In " "%byte (language_of info) /\
    (rest = [] \/ exists rest', rest = " "%byte :: rest').
Proof.
  destruct (first_space_split info 0) as (k & H1 & H2 & H3 & H4).
  assert (Hl : language_of info = firstn k info).
  { unfold language_of, sub. rewrite H1. simpl skipn. f_equal. lia. }
  exists (skipn k info). rewrite Hl. split; [|split].
  - symmetry. apply firstn_skipn.
  - exact H3.
  - exact H4.
Qed.

Section NodesDefault.
Variable u : Util.
Variable bytes_ToLower : list byte -> list byte.
Variable Node_Text : ast.Node -> list byte -> list byte.
Variable r : Config.
Variable source : list byte.
Hypothesis Hwriter : Config_Writer r = DefaultWriter u.

Lemma writeLines_spec (lines : list ast.Segment) (w : BufWriter) :
  forallb (seg_ok source) lines = true ->
  writeLines r source lines w
    = Ok (tt, w ++ escape_all (lines_value source lines)).
Proof.
  revert w. induction lines as [|line rest IH]; intros w H; simpl.
  - rewrite app_nil_r. reflexivity.
  - simpl in H. apply andb_prop in H. destruct H as [H1 H2].
    unfold bind. rewrite Value_spec, H1, Hwriter.
    cbn [Writer_RawWrite DefaultWriter]. rewrite RawWrite_spec.
    rewrite IH by assumption. unfold lines_value. simpl.
    rewrite escape_all_app, app_assoc. reflexivity.
Qed.

(** X18. With the default writer a code block opens with [<pre><code>] and
    the escape of its lines, and closes with [</code></pre>] and a line
    feed. *)
Theorem CodeBlock_renders (Lines : list ast.Segment) (fc ns : ast.Node)
    (w : BufWriter) :
  forallb (seg_ok source) Lines = true ->
  Render u bytes_ToLower Node_Text r source
    (ast.Mk (ast.CodeBlock Lines) fc ns) true w
    = Ok ((ast.WalkContinue, None),
          w ++ bs "<pre><code>" ++ escape_all (lines_value source Lines)) /\
  Render u bytes_ToLower Node_Text r source
    (ast.Mk (ast.CodeBlock Lines) fc ns) false w
    = Ok ((ast.WalkContinue, None), w ++ bs "</code></pre>" ++ [lf]).
Proof.
  intros H. cbn [Render]. unfold renderCodeBlock, no_error. split.
  - unfold bind, w_WriteString, w_Write. rewrite writeLines_spec by assumption.
    unfold ret. rewrite <- app_assoc. reflexivity.
  - reflexivity.
Qed.

Lemma FencedCodeBlock_enter (Info : option ast.Text) (Lines : list ast.Segment)
    (fc ns : ast.Node) (w : BufWriter) :
  forallb (seg_ok source) Lines = true ->
  match Info with
  | None =>
      Render u bytes_ToLower Node_Text r source
        (ast.Mk (ast.FencedCodeBlock Info Lines) fc ns) true w
      = Ok ((ast.WalkContinue, None),
            w ++ bs "<pre><code>" ++ escape_all (lines_value source Lines))
  | Some t =>
      seg_ok source (ast.Segment_ t) = true ->
      let info := sub source (ast.Start (ast.Segment_ t)) (ast.Stop (ast.Segment_ t)) in
      Render u bytes_ToLower Node_Text r source
        (ast.Mk (ast.FencedCodeBlock Info Lines) fc ns) true w
      = match Write u (language_of info)
                (w ++ bs "<pre><code class=" ++ [dquote] ++ bs "language-") with
        | Ok (_, w1) =>
            Ok ((ast.WalkContinue, None),
                w1 ++ [dquote] ++ bs ">" ++ escape_all (lines_value source Lines))
        | Panic => Panic
        | OutOfFuel => OutOfFuel
        end
  end.
Proof.
  intros Hl. destruct Info as [t|].
  - intros Hseg info. cbn [Render]. unfold renderFencedCodeBlock, no_error.
    pose proof (first_space_bounds info 0) as Hb.
    unfold bind, w_WriteString, w_WriteByte, w_Write.
    rewrite Value_spec, Hseg. fold info. rewrite slice_ok by lia.
    fold (language_of info). rewrite Hwriter. cbn [Writer_Write DefaultWriter].
    replace ((w ++ bs "<pre><code") ++ bs " class=" ++ [dquote] ++ bs "language-")
      with (w ++ bs "<pre><code class=" ++ [dquote] ++ bs "language-")
      by (rewrite <- app_assoc; reflexivity).
    destruct (Write u (language_of info) _) as [[[] w1]| |]; try reflexivity.
    rewrite writeLines_spec by assumption.
    unfold ret. rewrite <- !app_assoc. reflexivity.
  - cbn [Render]. unfold renderFencedCodeBlock, no_error.
    unfold bind, w_WriteString, w_WriteByte, w_Write, ret.
    rewrite writeLines_spec by assumption.
    rewrite <- !app_assoc. reflexivity.
Qed.



Hypothesis Hvalid : forall c, ToValidRune u c = c \/ ToValidRune u c = 65533.

Lemma write_title_escaped (Title : option (list byte)) (w w' : BufWriter) :
  write_title r Title w = Ok (tt, w') ->
  match Title with
  | None => w' = w
  | Some _ =>
      exists t, w' = w ++ bs " title=" ++ [dquote] ++ escape_all t ++ [dquote]
  end.
Proof.
  unfold write_title. destruct Title as [title|].
  - rewrite Hwriter. cbn [Writer_Write DefaultWriter].
    unfold bind at 1. cbn [w_Write]. unfold bind at 1.
    destruct (Write u title _) as [[[] w1]| |] eqn:E; try discriminate.
    destruct (appends_escaped_Write u Hvalid title _ _ _ E) as (t & ->).
    unfold w_WriteByte, w_Write. intros H. inversion H. exists t.
    rewrite <- !app_assoc. reflexivity.
  - intros H. inversion H. reflexivity.
Qed.

(** X21. With the default writer a link that returns on entering has written
    [<a href=], the escaped destination and, when it has a title, a [title]
    attribute whose value is the escape of some text, so that no double
    quote ends the attribute early. *)
Theorem Link_enter_title_escaped (Destination : list byte)
    (Title : option (list byte)) (fc ns : ast.Node) (w : BufWriter) res w' :
  Render u bytes_ToLower Node_Text r source
    (ast.Mk (ast.Link Destination Title) fc ns) true w = Ok (res, w') ->
  res = (ast.WalkContinue, None) /\
  exists attr,
    w' = w ++ bs "<a href=" ++ [dquote]
           ++ EscapeHTML u (URLEscape u Destination true) ++ [dquote]
           ++ attr ++ bs ">" /\
    match Title with
    | None => attr = []
    | Some _ => exists t, attr = bs " title=" ++ [dquote] ++ escape_all t ++ [dquote]
    end.
Proof.
  cbn [Render]. unfold renderLink, no_error.
  unfold bind at 1. unfold bind at 1. unfold bind at 1. cbn [w_Write].
  unfold bind at 1. cbn [w_Write]. unfold bind at 1. cbn [w_WriteByte w_Write].
  unfold bind at 1.
  destruct (write_title r Title _) as [[[] w1]| |] eqn:E; try discriminate.
  apply write_title_escaped in E.
  unfold w_WriteByte, w_Write, ret. intros H. inversion H; subst. clear H.
  split; [reflexivity|].
  destruct Title as [title|].
  - destruct E as (t & ->).
    exists (bs " title=" ++ [dquote] ++ escape_all t ++ [dquote]).
    split; [|exists t; reflexivity].
    rewrite <- !app_assoc. reflexivity.
  - subst w1. exists []. split; [|reflexivity].
    rewrite <- !app_assoc. reflexivity.
Qed.

(** X22. With the default writer an image that returns on entering has
    written [<img src=], the escaped destination, the [alt] text, a [title]
    attribute whose value is the escape of some text when it has a title,
    and [>] or [ />] as the renderer asks; it skips the children. *)
Theorem Image_enter_title_escaped (Destination : list byte)
    (Title : option (list byte)) (fc ns : ast.Node) (w : BufWriter) res w' :
  Render u bytes_ToLower Node_Text r source
    (ast.Mk (ast.Image Destination Title) fc ns) true w = Ok (res, w') ->
  res = (ast.WalkSkipChildren, None) /\
  exists attr,
    w' = w ++ bs "<img src=" ++ [dquote]
           ++ EscapeHTML u (URLEscape u Destination true) ++ [dquote]
           ++ bs " alt=" ++ [dquote]
           ++ Node_Text (ast.Mk (ast.Image Destination Title) fc ns) source
           ++ [dquote] ++ attr
           ++ (if Config_XHTML r then bs " />" else bs ">") /\
    match Title with
    | None => attr = []
    | Some _ => exists t, attr = bs " title=" ++ [dquote] ++ escape_all t ++ [dquote]
    end.
Proof.
  cbn [Render]. unfold renderImage, no_error. cbn [negb].
  unfold bind at 1. unfold bind at 1. cbn [w_Write].
  unfold bind at 1. cbn [w_Write]. unfold bind at 1. cbn [w_Write].
  unfold bind at 1. cbn [w_Write]. unfold bind at 1. cbn [w_WriteByte w_Write].
  unfold bind at 1.
  destruct (write_title r Title _) as [[[] w1]| |] eqn:E; try discriminate.
  apply write_title_escaped in E.
  intros H.
  assert (Hres : res = (ast.WalkSkipChildren, None) /\
                 w' = w1 ++ (if Config_XHTML r then bs " />" else bs ">")).
  { destruct (Config_XHTML r); unfold bind, w_WriteString, w_Write, ret in H;
      inversion H; subst; split; reflexivity. }
  destruct Hres as [-> ->]. split; [reflexivity|].
  destruct Title as [title|].
  - destruct E as (t & ->).
    exists (bs " title=" ++ [dquote] ++ escape_all t ++ [dquote]).
    split; [|exists t; reflexivity].
    rewrite <- !app_assoc. reflexivity.
  - subst w1. exists []. split; [|reflexivity].
    rewrite <- !app_assoc. reflexivity.
Qed.
End NodesDefault.

(** ** The writer, as its callers see it *)

(** X2. Whatever [Write] appends to the sink when it returns is the escape
    of some text: every double quote, ampersand, [<] or [>] in it is the
    ampersand that opens one of the four replacements, provided
    [util.ToValidRune] answers its argument or U+FFFD. *)
Theorem Write_emits_only_escaped_text (u : Util) (s : list byte) (w w' : BufWriter) :
  (forall r, ToValidRune u r = r \/ ToValidRune u r = 65533) ->
  Write u s w = Ok (tt, w') ->
  exists t,
    w' = w ++ escape_all t /\
    forall k c, nth_error (escape_all t) k = Some c -> is_meta c = true ->
                c = "&"%byte /\ escaped_at (escape_all t) k.
Proof.
  intros Hv H. destruct (appends_escaped_Write u Hv s w tt w' H) as (t & ->).
  exists t. split; [reflexivity|]. apply escape_all_meta.
Qed.

(** X3. [RawWrite] loses nothing: two sources leave the same sink exactly
    when they are equal. *)
Theorem RawWrite_injective (s1 s2 : list byte) (w : BufWriter) :
  RawWrite s1 w = RawWrite s2 w <-> s1 = s2.
Proof.
  split; [|intros ->; reflexivity].
  rewrite !RawWrite_spec. intros H. inversion H as [H1].
  apply app_inv_head in H1. apply escape_all_injective. exact H1.
Qed.

(** X4. Within the bounds of the source, [readWhile] returns the end of the
    longest run of bytes from [index[0]] that satisfy the predicate and stay
    below [index[1]], and reports whether the run is not empty; an empty
    range answers [index[0]] and false. *)
Theorem readWhile_longest_run (s : list byte) (lo hi : Z) (pred : byte -> bool)
    (w : BufWriter) :
  0 <= lo -> hi <= len s ->
  exists e,
    readWhile s lo hi pred w = Ok ((e, lo <? e), w) /\
    lo <= e /\ (lo <= hi -> e <= hi) /\
    (forall i, lo <= i < e ->
       exists c, nth_error s (Z.to_nat i) = Some c /\ pred c = true) /\
    (e < hi -> exists c, nth_error s (Z.to_nat e) = Some c /\ pred c = false).
Proof.
  intros Hlo Hhi. unfold readWhile.
  destruct (readWhile_loop_spec s hi pred w (length s) lo false Hlo Hhi)
    as (e & R & H); [unfold len in Hhi; lia|].
  exists e. split; [exact R|exact H].
Qed.

(** X5. For a rune that [util.ToValidRune] leaves as it is, [escapeRune]
    writes the escape of the rune's UTF-8 encoding. *)
Theorem escapeRune_escapes_encoding (u : Util) (r : Z) (w : BufWriter) :
  0 <= r -> ToValidRune u r = r ->
  escapeRune u r w = Ok (tt, w ++ escape_all (utf8_EncodeRune r)).
Proof.
  intros Hr Hv. unfold escapeRune.
  destruct (r <? 256) eqn:E.
  - apply Z.ltb_lt in E.
    destruct (htmlEscaleTable_at (z2b r)) as [v|] eqn:T.
    + destruct (table_some _ _ T) as [Hm Hb].
      assert (Hsmall : r <= 127).
      { pose proof (z2b_to_N r) as Hz. rewrite Z.mod_small in Hz by lia.
        destruct (is_meta_cases _ Hm) as [H|[H|[H|H]]];
          rewrite H in Hz; vm_compute in Hz; lia. }
      rewrite utf8_low by lia. unfold w_Write. simpl.
      rewrite Hb, app_nil_r. reflexivity.
    + unfold w_WriteRune, w_Write. rewrite Hv.
      rewrite utf8_unreplaced by (intros _; exact T). reflexivity.
  - unfold w_WriteRune, w_Write. rewrite Hv.
    rewrite utf8_unreplaced by (intros H; congruence). reflexivity.
Qed.

(** X19. With the default writer a fenced code block with an info string
    takes as language what precedes the first space of the info string,
    writes it through [Write] in the [class] attribute, and then the escape
    of its lines. *)
Theorem FencedCodeBlock_language (u : Util)
    (bytes_ToLower : list byte -> list byte)
    (Node_Text : ast.Node -> list byte -> list byte) (r : Config)
    (source : list byte) (t : ast.Text) (Lines : list ast.Segment)
    (fc ns : ast.Node) (w : BufWriter) :
  Config_Writer r = DefaultWriter u ->
  seg_ok source (ast.Segment_ t) = true ->
  forallb (seg_ok source) Lines = true ->
  let info := sub source (ast.Start (ast.Segment_ t)) (ast.Stop (ast.Segment_ t)) in
  (exists rest,
     info = language_of info ++ rest /\
     ~ In " "%byte (language_of info) /\
     (rest = [] \/ exists rest', rest = " "%byte :: rest')) /\
  Render u bytes_ToLower Node_Text r source
    (ast.Mk (ast.FencedCodeBlock (Some t) Lines) fc ns) true w
  = match Write u (language_of info)
            (w ++ bs "<pre><code class=" ++ [dquote] ++ bs "language-") with
    | Ok (_, w1) =>
        Ok ((ast.WalkContinue, None),
            w1 ++ [dquote] ++ bs ">" ++ escape_all (lines_value source Lines))
    | Panic => Panic
    | OutOfFuel => OutOfFuel
    end.
Proof.
  intros Hw Hseg Hl info. split; [apply language_of_spec|].
  exact (FencedCodeBlock_enter u bytes_ToLower Node_Text r source Hw
           (Some t) Lines fc ns w Hl Hseg).
Qed.

(** ** Sample runs *)

Lemma util_sample_valid (r : Z) :
  ToValidRune util_sample r = r \/ ToValidRune util_sample r = 65533.
Proof.
  cbn [ToValidRune util_sample].
  destruct ((r <=? 0) || (1114111 <? r) || ((55296 <=? r) && (r <=? 57343))); auto.
Qed.

Ltac plain_bytes :=
  repeat (first [apply Forall_nil | apply Forall_cons]);
  try (split; discriminate); try reflexivity.

Lemma Write_emits_only_escaped_text_witness :
  exists t,
    bs "a&lt;b &amp; &lt; &quot;x" = [] ++ escape_all t /\
    forall k c, nth_error (escape_all t) k = Some c -> is_meta c = true ->
                c = "&"%byte /\ escaped_at (escape_all t) k.
Proof.
  apply (Write_emits_only_escaped_text util_sample (bs "a<b \& &#60; &quot;x") []
           (bs "a&lt;b &amp; &lt; &quot;x")).
  - exact util_sample_valid.
  - reflexivity.
Defined.

Lemma readWhile_longest_run_witness :
  exists e,
    readWhile (bs "123;x") 0 5 (IsNumeric util_sample) [] = Ok ((e, 0 <? e), []) /\
    0 <= e /\ (0 <= 5 -> e <= 5) /\
    (forall i, 0 <= i < e ->
       exists c, nth_error (bs "123;x") (Z.to_nat i) = Some c
                 /\ IsNumeric util_sample c = true) /\
    (e < 5 -> exists c, nth_error (bs "123;x") (Z.to_nat e) = Some c
                        /\ IsNumeric util_sample c = false).
Proof.
  apply (readWhile_longest_run (bs "123;x") 0 5 (IsNumeric util_sample) []).
  - lia.
  - vm_compute. discriminate.
Defined.

Lemma escapeRune_escapes_encoding_witness :
  escapeRune util_sample 233 [] = Ok (tt, [] ++ escape_all (utf8_EncodeRune 233)).
Proof.
  apply (escapeRune_escapes_encoding util_sample 233 []).
  - lia.
  - reflexivity.
Defined.

Lemma Write_backslash_witness :
  Write util_sample (bs "a" ++ bs "\" ++ "*"%byte :: bs "b") []
    = if IsPunct util_sample "*"%byte then RawWrite (bs "a" ++ "*"%byte :: bs "b") []
      else RawWrite (bs "a" ++ bs "\" ++ "*"%byte :: bs "b") [].
Proof.
  apply (Write_backslash util_sample (bs "a") (bs "b") "*"%byte []).
  - plain_bytes.
  - plain_bytes.
  - intros _. split; discriminate.
Defined.

Lemma Write_hex_witness :
  Write util_sample (bs "a" ++ bs "&#" ++ "x"%byte :: bs "3C" ++ bs ";" ++ bs "b") []
    = (RawWrite (bs "a") ;;; escapeRune util_sample (rune (ParseUint (bs "3C") 16 32)) ;;;
       RawWrite (bs "b")) [].
Proof.
  apply (Write_hex util_sample (bs "a") (bs "3C") (bs "b") "x"%byte []).
  - plain_bytes.
  - plain_bytes.
  - left. reflexivity.
  - discriminate.
  - plain_bytes.
  - reflexivity.
Defined.

Lemma Write_decimal_witness :
  Write util_sample (bs "a" ++ bs "&#" ++ ("6"%byte :: bs "0") ++ bs ";" ++ bs "b") []
    = (RawWrite (bs "a") ;;; escapeRune util_sample (decimal_value ("6"%byte :: bs "0")) ;;;
       RawWrite (bs "b")) [].
Proof.
  apply (Write_decimal util_sample (bs "a") (bs "0") (bs "b") "6"%byte []).
  - plain_bytes.
  - plain_bytes.
  - reflexivity.
  - plain_bytes.
  - plain_bytes.
  - reflexivity.
  - vm_compute. discriminate.
Defined.

Lemma Write_decimal_long_witness :
  Write util_sample (bs "a" ++ bs "&#" ++ bs "00000060" ++ bs ";" ++ bs "b") []
    = RawWrite (bs "a" ++ bs "&#" ++ bs "00000060" ++ bs ";" ++ bs "b") [].
Proof.
  apply (Write_decimal_long util_sample (bs "a") (bs "00000060") (bs "b") []).
  - plain_bytes.
  - plain_bytes.
  - plain_bytes.
  - plain_bytes.
  - reflexivity.
  - vm_compute. discriminate.
Defined.

Lemma Write_named_witness :
  Write util_sample (bs "a" ++ bs "&" ++ ("l"%byte :: bs "t") ++ bs ";" ++ bs "b") []
    = match LookUpHTML5EntityByName util_sample ("l"%byte :: bs "t") with
      | Some characters => RawWrite (bs "a" ++ characters ++ bs "b") []
      | None => RawWrite (bs "a" ++ bs "&" ++ ("l"%byte :: bs "t") ++ bs ";" ++ bs "b") []
      end.
Proof.
  apply (Write_named util_sample (bs "a") (bs "t") (bs "b") "l"%byte []).
  - plain_bytes.
  - plain_bytes.
  - discriminate.
  - plain_bytes.
  - plain_bytes.
  - reflexivity.
Defined.

Lemma Render_silent_witness :
  sample_Render (bs "x") (ast.Mk (ast.TextNode (text_at 0 1)) ast.Nil ast.Nil) false (bs "out")
    = Ok ((ast.WalkContinue, None), bs "out").
Proof.
  apply (Render_silent util_sample ascii_ToLower (fun _ _ => []) (NewConfig util_sample)
           (bs "x") (ast.Mk (ast.TextNode (text_at 0 1)) ast.Nil ast.Nil) false (bs "out")).
  reflexivity.
Defined.

Lemma Text_renders_witness :
  sample_Render (bs "a<b") (ast.Mk (ast.TextNode (text_at 0 3)) ast.Nil ast.Nil) true []
    = if ast.IsRaw (text_at 0 3) then Ok ((ast.WalkContinue, None), [] ++ sub (bs "a<b") 0 3)
      else
        match Writer_Write (Config_Writer (NewConfig util_sample)) (sub (bs "a<b") 0 3) [] with
        | Ok (_, w1) => Ok ((ast.WalkContinue, None), w1 ++ text_break (NewConfig util_sample) (text_at 0 3))
        | Panic => Panic
        | OutOfFuel => OutOfFuel
        end.
Proof.
  apply (Text_renders util_sample ascii_ToLower (fun _ _ => []) (NewConfig util_sample)
           (bs "a<b") (text_at 0 3) ast.Nil ast.Nil []).
  reflexivity.
Defined.

Lemma CodeBlock_renders_witness :
  sample_Render (bs "go a<b c") (ast.Mk (ast.CodeBlock sample_lines) ast.Nil ast.Nil) true []
    = Ok ((ast.WalkContinue, None),
          [] ++ bs "<pre><code>" ++ escape_all (lines_value (bs "go a<b c") sample_lines)) /\
  sample_Render (bs "go a<b c") (ast.Mk (ast.CodeBlock sample_lines) ast.Nil ast.Nil) false []
    = Ok ((ast.WalkContinue, None), [] ++ bs "</code></pre>" ++ [lf]).
Proof.
  apply (CodeBlock_renders util_sample ascii_ToLower (fun _ _ => []) (NewConfig util_sample)
           (bs "go a<b c") eq_refl sample_lines ast.Nil ast.Nil []).
  reflexivity.
Defined.

Lemma FencedCodeBlock_language_witness :
  let info := sub (bs "go a<b c") 0 2 in
  (exists rest,
     info = language_of info ++ rest /\
     ~ In " "%byte (language_of info) /\
     (rest = [] \/ exists rest', rest = " "%byte :: rest')) /\
  sample_Render (bs "go a<b c")
    (ast.Mk (ast.FencedCodeBlock (Some (text_at 0 2)) sample_lines) ast.Nil ast.Nil) true []
  = match Write util_sample (language_of info)
            ([] ++ bs "<pre><code class=" ++ [dquote] ++ bs "language-") with
    | Ok (_, w1) =>
        Ok ((ast.WalkContinue, None),
            w1 ++ [dquote] ++ bs ">" ++ escape_all (lines_value (bs "go a<b c") sample_lines))
    | Panic => Panic
    | OutOfFuel => OutOfFuel
    end.
Proof.
  apply (FencedCodeBlock_language util_sample ascii_ToLower (fun _ _ => [])
           (NewConfig util_sample) (bs "go a<b c") (text_at 0 2) sample_lines
           ast.Nil ast.Nil []); reflexivity.
Defined.


Lemma Link_enter_title_escaped_witness :
  (ast.WalkContinue, @None error) = (ast.WalkContinue, None) /\
  exists attr,
    bs "<a href=" ++ [dquote] ++ bs "/u" ++ [dquote] ++ bs " title=" ++ [dquote]
       ++ bs "t&lt;&quot;*" ++ [dquote] ++ bs ">"
    = [] ++ bs "<a href=" ++ [dquote]
         ++ EscapeHTML util_sample (URLEscape util_sample (bs "/u") true) ++ [dquote]
         ++ attr ++ bs ">" /\
    exists t, attr = bs " title=" ++ [dquote] ++ escape_all t ++ [dquote].
Proof.
  apply (Link_enter_title_escaped util_sample ascii_ToLower (fun _ _ => [])
           (NewConfig util_sample) [] eq_refl util_sample_valid
           (bs "/u") (Some (bs "t<&quot;\*")) ast.Nil ast.Nil []).
  reflexivity.
Defined.

Lemma Image_enter_title_escaped_witness :
  (ast.WalkSkipChildren, @None error) = (ast.WalkSkipChildren, None) /\
  exists attr,
    bs "<img src=" ++ [dquote] ++ bs "/u" ++ [dquote] ++ bs " alt=" ++ [dquote]
       ++ [dquote] ++ bs " title=" ++ [dquote] ++ bs "t&lt;&quot;*" ++ [dquote] ++ bs ">"
    = [] ++ bs "<img src=" ++ [dquote]
         ++ EscapeHTML util_sample (URLEscape util_sample (bs "/u") true) ++ [dquote]
         ++ bs " alt=" ++ [dquote]
         ++ (fun _ _ => []) (ast.Mk (ast.Image (bs "/u") (Some (bs "t<&quot;\*"))) ast.Nil ast.Nil)
              (@nil byte)
         ++ [dquote] ++ attr
         ++ (if Config_XHTML (NewConfig util_sample) then bs " />" else bs ">") /\
    exists t, attr = bs " title=" ++ [dquote] ++ escape_all t ++ [dquote].
Proof.
  apply (Image_enter_title_escaped util_sample ascii_ToLower (fun _ _ => [])
           (NewConfig util_sample) [] eq_refl util_sample_valid
           (bs "/u") (Some (bs "t<&quot;\*")) ast.Nil ast.Nil []).
  reflexivity.
Defined.
